(** * xml2json: the element converter and the namespace normaliser

    A shallow embedding of [xml_to_dict] and [preprocess_xml_tree] of
    [xml2json.py], with the properties its specification states about them.

    Python values are modelled as follows.
    - [str] is [string]; a character is read as a code point below 256.
    - [dict] is an association list in insertion order with unique keys;
      [d[k] = v] keeps the position of a key that is already present.
    - an exception is a value of [Exc]: every operation of the source that
      can raise is a function into [Exc], so that "no exception" is a
      statement and not a convention.
    - an [ET.Element] is a node of an inductive tree for the functional
      reading of the code, and an object in a store addressed by a location
      for the reading in which the tree is shared and mutated in place. *)

From stdpp Require Import gmap.
From Stdlib Require Import String Ascii List Bool Arith ZArith Lia.
From Stdlib Require Import Floats.SpecFloat.
Import ListNotations.
Set Warnings "-register-all".
Local Open Scope string_scope.
Local Open Scope list_scope.

(** ** Exceptions *)

Inductive PyError : Type :=
| IndexError
| KeyError
| AttributeError
| ReferenceError
| RecursionError.

Inductive Exc (A : Type) : Type :=
| Ok (a : A)
| Raise (e : PyError).

Arguments Ok {A} a.
Arguments Raise {A} e.

Definition exc_bind {A B : Type} (m : Exc A) (k : A -> Exc B) : Exc B :=
  match m with
  | Ok a => k a
  | Raise e => Raise e
  end.

Declare Scope exc_scope.
Delimit Scope exc_scope with exc.
Notation "'do' x <- m ;; k" := (exc_bind m (fun x => k))
  (at level 10, x name, m at level 99, k at level 200) : exc_scope.
Local Open Scope exc_scope.

(** [for x in l: s = body(x, s)] with the loop state [s] threaded through. *)
Section ForEach.
Context {A S : Type} (body : A -> S -> Exc S).

Fixpoint for_each (l : list A) (s : S) {struct l} : Exc S :=
  match l with
  | [] => Ok s
  | x :: l' => do s' <- body x s ;; for_each l' s'
  end.
End ForEach.

(** [l[i]] on a list. *)
Definition list_getitem {A : Type} (l : list A) (i : nat) : Exc A :=
  match nth_error l i with
  | Some a => Ok a
  | None => Raise IndexError
  end.

(** ** Strings *)

(** Truth value of a [str]: non-empty. *)
Definition str_truthy (s : string) : bool :=
  match s with
  | EmptyString => false
  | String _ _ => true
  end.

(** [c in s] for a one-character [c]. *)
Fixpoint str_contains (c : ascii) (s : string) : bool :=
  match s with
  | EmptyString => false
  | String a r => if Ascii.eqb a c then true else str_contains c r
  end.

(** [s.split(c, 1)]: at most one split, at the first occurrence of [c]. *)
Fixpoint str_split1 (c : ascii) (s : string) : list string :=
  match s with
  | EmptyString => [EmptyString]
  | String a r =>
      if Ascii.eqb a c then [EmptyString; r]
      else match str_split1 c r with
           | h :: t => String a h :: t
           | [] => [String a EmptyString]
           end
  end.

(** [str.isspace] on the code points below 256: TAB, LF, VT, FF, CR, the
    separators FS, GS, RS and US, space, NEL and the no-break space. *)
Definition py_isspace (a : ascii) : bool :=
  let n := nat_of_ascii a in
  (Nat.leb 9 n && Nat.leb n 13) || (Nat.leb 28 n && Nat.leb n 32)
  || Nat.eqb n 133 || Nat.eqb n 160.

Fixpoint str_lstrip (s : string) : string :=
  match s with
  | EmptyString => EmptyString
  | String a r => if py_isspace a then str_lstrip r else s
  end.

Fixpoint str_rstrip (s : string) : string :=
  match s with
  | EmptyString => EmptyString
  | String a r =>
      match str_rstrip r with
      | EmptyString => if py_isspace a then EmptyString else String a EmptyString
      | r' => String a r'
      end
  end.

(** [s.strip()] *)
Definition str_strip (s : string) : string := str_rstrip (str_lstrip s).

(** ** Dictionaries *)

Definition Dict (V : Type) : Type := list (string * V).

Section Dict.
Context {V : Type}.

(** Truth value of a [dict]: non-empty. *)
Definition dict_truthy (d : Dict V) : bool :=
  match d with
  | [] => false
  | _ :: _ => true
  end.

Fixpoint dict_get (k : string) (d : Dict V) : option V :=
  match d with
  | [] => None
  | (k', v) :: r => if String.eqb k k' then Some v else dict_get k r
  end.

(** [k in d] *)
Definition dict_in (k : string) (d : Dict V) : bool :=
  match dict_get k d with
  | Some _ => true
  | None => false
  end.

(** [d[k]] *)
Definition dict_getitem (k : string) (d : Dict V) : Exc V :=
  match dict_get k d with
  | Some v => Ok v
  | None => Raise KeyError
  end.

(** [d[k] = v] *)
Fixpoint dict_setitem (k : string) (v : V) (d : Dict V) : Dict V :=
  match d with
  | [] => [(k, v)]
  | (k', v') :: r =>
      if String.eqb k k' then (k, v) :: r else (k', v') :: dict_setitem k v r
  end.

(** [d.update(other)] *)
Definition dict_update (d other : Dict V) : Dict V :=
  fold_left (fun acc kv => dict_setitem (fst kv) (snd kv) acc) other d.

(** [d.clear()] *)
Definition dict_clear (d : Dict V) : Dict V := [].

Definition dict_keys (d : Dict V) : list string := map fst d.
End Dict.

(** ** JSON values and elements *)

(** [JsonValue = Union[Dict[str, Any], List[Any], str, int, float, bool, None]] *)
Inductive JsonValue : Type :=
| JNone
| JBool (b : bool)
| JInt (n : Z)
| JFloat (f : spec_float)
| JStr (s : string)
| JList (l : list JsonValue)
| JDict (d : list (string * JsonValue)).

Definition XmlDict : Type := Dict JsonValue.

(** [isinstance(v, list)] *)
Definition is_list (v : JsonValue) : bool :=
  match v with
  | JList _ => true
  | _ => false
  end.

(** [v.append(x)]: only a list has the method. *)
Definition py_append (v x : JsonValue) : Exc JsonValue :=
  match v with
  | JList l => Ok (JList (l ++ [x]))
  | _ => Raise AttributeError
  end.

(** An [ET.Element]: [child_elements] is what iterating the element yields. *)
Inductive Element : Type :=
  mkElement {
    tag : string;
    attrib : Dict string;
    text : option string;
    child_elements : list Element
  }.

(** An [ET.ElementTree] *)
Record ElementTree : Type := mkElementTree { getroot : Element }.

(** Truth value of [element.text]: neither [None] nor empty. *)
Definition text_truthy (t : option string) : bool :=
  match t with
  | Some s => str_truthy s
  | None => false
  end.

(** [element.text.strip()] *)
Definition text_strip (t : option string) : Exc string :=
  match t with
  | Some s => Ok (str_strip s)
  | None => Raise AttributeError
  end.

(** ** [xml_to_dict] *)

(** The inner function [clean_tag]. *)
Definition clean_tag (strip_namespaces : bool) (tag : string) : Exc string :=
  if strip_namespaces && str_contains "}" tag
  then list_getitem (str_split1 "}" tag) 1
  else Ok tag.

(** Lines 48-51: attributes with the [@] prefix. *)
Definition add_attributes (strip_namespaces : bool) (attrib : Dict string)
  (result : XmlDict) : Exc XmlDict :=
  if dict_truthy attrib then
    for_each (fun kv result =>
      do clean_key <- clean_tag strip_namespaces (fst kv) ;;
      Ok (dict_setitem ("@" ++ clean_key)%string (JStr (snd kv)) result))
      attrib result
  else Ok result.

(** Lines 54-56: the trimmed text. *)
Definition get_text_content (text : option string) : Exc string :=
  if text_truthy text then text_strip text else Ok "".

(** Lines 64-70: one child added to [children]. *)
Definition add_child (children : XmlDict) (child_tag : string)
  (child_data : JsonValue) : Exc XmlDict :=
  if dict_in child_tag children then
    do cur <- dict_getitem child_tag children ;;
    let children :=
      if negb (is_list cur) then dict_setitem child_tag (JList [cur]) children
      else children in
    do cur <- dict_getitem child_tag children ;;
    do cur <- py_append cur child_data ;;
    Ok (dict_setitem child_tag cur children)
  else Ok (dict_setitem child_tag child_data children).

(** How the body leaves lines 73-84: through one of the two [return]s
    there, or by falling through to line 86 with [result]. *)
Inductive Flow : Type :=
| EarlyReturn (v : JsonValue)
| FallThrough (result : XmlDict).

(** Lines 73-84. *)
Definition combine (preserve_mixed_content empty_elements_as_null : bool)
  (result : XmlDict) (text_content : string) (children : XmlDict) : Flow :=
  if dict_truthy children then
    let result := dict_update result children in
    if str_truthy text_content && preserve_mixed_content
    then FallThrough (dict_setitem "#text" (JStr text_content) result)
    else FallThrough result
  else if str_truthy text_content then
    if dict_truthy result
    then FallThrough (dict_setitem "#text" (JStr text_content) result)
    else EarlyReturn (JStr text_content)
  else if negb (dict_truthy result) then
    EarlyReturn (if empty_elements_as_null then JNone else JDict [])
  else FallThrough result.

(** Line 86. *)
Definition final_return (empty_elements_as_null : bool) (result : XmlDict)
  : JsonValue :=
  if dict_truthy result then JDict result
  else if empty_elements_as_null then JNone else JDict [].

Definition finish (empty_elements_as_null : bool) (f : Flow) : JsonValue :=
  match f with
  | EarlyReturn v => v
  | FallThrough result => final_return empty_elements_as_null result
  end.

Fixpoint xml_to_dict (element : Element)
  (strip_namespaces preserve_mixed_content empty_elements_as_null : bool)
  {struct element} : Exc JsonValue :=
  let '(mkElement _ element_attrib element_text element_iter) := element in
  do result <- add_attributes strip_namespaces element_attrib [] ;;
  do text_content <- get_text_content element_text ;;
  do children <-
    for_each (fun child children =>
      do child_tag <- clean_tag strip_namespaces (tag child) ;;
      do child_data <- xml_to_dict child strip_namespaces
                         preserve_mixed_content empty_elements_as_null ;;
      add_child children child_tag child_data)
      element_iter [] ;;
  Ok (finish empty_elements_as_null
        (combine preserve_mixed_content empty_elements_as_null
           result text_content children)).

(** ** [preprocess_xml_tree] *)

Section MapExc.
Context {A B : Type} (f : A -> Exc B).

Fixpoint map_exc (l : list A) {struct l} : Exc (list B) :=
  match l with
  | [] => Ok []
  | x :: l' => do y <- f x ;; do l'' <- map_exc l' ;; Ok (y :: l'')
  end.
End MapExc.

(** Lines 99-100: the new value of [elem.tag]. *)
Definition preprocess_tag (tag : string) : Exc string :=
  if str_contains "}" tag
  then list_getitem (str_split1 "}" tag) 1
  else Ok tag.

(** Line 105. *)
Definition preprocess_key (key : string) : Exc string :=
  if str_contains "}" key
  then list_getitem (str_split1 "}" key) 1
  else Ok key.

(** Lines 103-108: [new_attrib] is built key by key, then [elem.attrib] is
    cleared and updated with it. *)
Definition rebuild_attrib (attrib : Dict string) : Exc (Dict string) :=
  do new_attrib <-
    for_each (fun kv new_attrib =>
      do new_key <- preprocess_key (fst kv) ;;
      Ok (dict_setitem new_key (snd kv) new_attrib))
      attrib [] ;;
  Ok (dict_update (dict_clear attrib) new_attrib).

(** Lines 102-108: the new value of [elem.attrib]. *)
Definition preprocess_attrib (attrib : Dict string) : Exc (Dict string) :=
  if dict_truthy attrib then rebuild_attrib attrib else Ok attrib.

(** The loop over [tree.iter()], which yields an element and then the
    elements below it: the body rewrites the tag and the attributes of the
    element it is given and touches nothing else. *)
Fixpoint preprocess_element (elem : Element) {struct elem} : Exc Element :=
  let '(mkElement elem_tag elem_attrib elem_text elem_iter) := elem in
  do new_tag <- preprocess_tag elem_tag ;;
  do new_attrib <- preprocess_attrib elem_attrib ;;
  do new_iter <- map_exc preprocess_element elem_iter ;;
  Ok (mkElement new_tag new_attrib elem_text new_iter).

Definition preprocess_xml_tree (tree : ElementTree) (strip_namespaces : bool)
  : Exc ElementTree :=
  if strip_namespaces then
    do root <- preprocess_element (getroot tree) ;;
    Ok (mkElementTree root)
  else Ok tree.

(** ** The element tree as shared objects

    The same two functions over a store of element objects, each naming its
    children by location: what the interpreter runs.  A computation takes
    the store and gives back a result or an exception, and the store it
    leaves, also when it raises. *)

Definition loc : Type := nat.

Record ElementObj : Type :=
  mkElementObj {
    obj_tag : string;
    obj_attrib : Dict string;
    obj_text : option string;
    obj_children : list loc
  }.

Definition M (A : Type) : Type := gmap loc ElementObj -> Exc A * gmap loc ElementObj.

Definition st_ret {A : Type} (a : A) : M A := fun st => (Ok a, st).

Definition st_raise {A : Type} (e : PyError) : M A := fun st => (Raise e, st).

Definition st_bind {A B : Type} (m : M A) (k : A -> M B) : M B :=
  fun st =>
    match m st with
    | (Ok a, st') => k a st'
    | (Raise e, st') => (Raise e, st')
    end.

(** A pure step of the computation. *)
Definition st_lift {A : Type} (r : Exc A) : M A := fun st => (r, st).

(** Reading one field of the object at [l]. A location without an object
    is not a state of the interpreter; the read is then stuck, which is
    reported as [ReferenceError]. *)
Definition st_read {A : Type} (field : ElementObj -> A) (l : loc) : M A :=
  fun st =>
    match st !! l with
    | Some o => (Ok (field o), st)
    | None => (Raise ReferenceError, st)
    end.

(** Assigning the tag and the attributes of the object at [l]. *)
Definition st_write_tag (l : loc) (new_tag : string) : M unit :=
  fun st =>
    match st !! l with
    | Some o =>
        (Ok tt, <[l := mkElementObj new_tag (obj_attrib o) (obj_text o)
                          (obj_children o)]> st)
    | None => (Raise ReferenceError, st)
    end.

Definition st_write_attrib (l : loc) (new_attrib : Dict string) : M unit :=
  fun st =>
    match st !! l with
    | Some o =>
        (Ok tt, <[l := mkElementObj (obj_tag o) new_attrib (obj_text o)
                          (obj_children o)]> st)
    | None => (Raise ReferenceError, st)
    end.

Declare Scope st_scope.
Delimit Scope st_scope with st.
Notation "'do' x <- m ;; k" := (st_bind m (fun x => k))
  (at level 10, x name, m at level 99, k at level 200) : st_scope.

Section ForEachM.
Context {A S : Type} (body : A -> S -> M S).

Fixpoint for_each_m (l : list A) (s : S) {struct l} : M S :=
  match l with
  | [] => st_ret s
  | x :: l' => (do s' <- body x s ;; for_each_m l' s')%st
  end.
End ForEachM.

(** [xml_to_dict] on the store. [depth] is the number of frames the
    interpreter still allows: a call with none left raises
    [RecursionError]. *)
Fixpoint xml_to_dict_at (depth : nat) (element : loc)
  (strip_namespaces preserve_mixed_content empty_elements_as_null : bool)
  {struct depth} : M JsonValue :=
  match depth with
  | O => st_raise RecursionError
  | S depth' =>
      (do element_attrib <- st_read obj_attrib element ;;
       do result <- st_lift (add_attributes strip_namespaces element_attrib []) ;;
       do element_text <- st_read obj_text element ;;
       do text_content <- st_lift (get_text_content element_text) ;;
       do element_iter <- st_read obj_children element ;;
       do children <-
         for_each_m (fun child children =>
           do child_tag_raw <- st_read obj_tag child ;;
           do child_tag <- st_lift (clean_tag strip_namespaces child_tag_raw) ;;
           do child_data <- xml_to_dict_at depth' child strip_namespaces
                              preserve_mixed_content empty_elements_as_null ;;
           st_lift (add_child children child_tag child_data))
           element_iter [] ;;
       st_ret (finish empty_elements_as_null
                 (combine preserve_mixed_content empty_elements_as_null
                    result text_content children)))%st
  end.

(** The store holds the tree [t] at [l]. *)
Inductive represents (st : gmap loc ElementObj) : loc -> Element -> Prop :=
| represents_node (l : loc) (o : ElementObj) (kids : list Element) :
    st !! l = Some o ->
    Forall2 (represents st) (obj_children o) kids ->
    represents st l (mkElement (obj_tag o) (obj_attrib o) (obj_text o) kids).

(** Nesting depth of a tree: 1 for an element without children. *)
Fixpoint height (e : Element) : nat :=
  let '(mkElement _ _ _ kids) := e in
  S (fold_right (fun c h => Nat.max (height c) h) 0 kids).

(** [tree.iter()] on the store: the element, then the elements below each
    of its children, in document order. *)
Fixpoint iter_at (depth : nat) (element : loc) {struct depth} : M (list loc) :=
  match depth with
  | O => st_raise RecursionError
  | S depth' =>
      (do element_iter <- st_read obj_children element ;;
       do below <-
         for_each_m (fun child seen =>
           do more <- iter_at depth' child ;;
           st_ret (seen ++ more))
           element_iter [] ;;
       st_ret (element :: below))%st
  end.

(** Lines 99-108 on the store: the two assignments to the object [elem]. *)
Definition preprocess_elem_at (elem : loc) : M unit :=
  (do elem_tag <- st_read obj_tag elem ;;
   do _ <-
     (if str_contains "}" elem_tag then
        do new_tag <- st_lift (list_getitem (str_split1 "}" elem_tag) 1) ;;
        st_write_tag elem new_tag
      else st_ret tt) ;;
   do elem_attrib <- st_read obj_attrib elem ;;
   if dict_truthy elem_attrib then
     do new_attrib <- st_lift (rebuild_attrib elem_attrib) ;;
     st_write_attrib elem new_attrib
   else st_ret tt)%st.

Definition preprocess_xml_tree_at (depth : nat) (root : loc)
  (strip_namespaces : bool) : M unit :=
  if strip_namespaces then
    (do elems <- iter_at depth root ;;
     for_each_m (fun elem _ => preprocess_elem_at elem) elems tt)%st
  else st_ret tt.

(** ** The scenarios of the specification *)

Module Scenarios.
Definition leaf (t : string) (txt : option string) : Element :=
  mkElement t [] txt [].

(** [<a/>] *)
Definition a_empty : Element := leaf "a" None.
(** [<a>hi</a>] *)
Definition a_hi : Element := leaf "a" (Some "hi").
(** [<a id="1"><b>x</b><b>y</b></a>] *)
Definition a_bb : Element :=
  mkElement "a" [("id", "1")] None [leaf "b" (Some "x"); leaf "b" (Some "y")].
(** [<a>text<b/></a>] *)
Definition a_mixed : Element :=
  mkElement "a" [] (Some "text") [leaf "b" None].
(** [<ns:a xmlns:ns="u" ns:id="7">v</ns:a>] as the parser delivers it. *)
Definition a_ns : Element :=
  mkElement "{u}a" [("{u}id", "7")] (Some "v") [].

(** A line feed, and two texts with white space around and nothing else. *)
Definition line_feed : string := String "010"%char EmptyString.
Definition padded : string := ("  hi there" ++ line_feed)%string.
Definition blank : string := (line_feed ++ "   ")%string.

(** An element built by hand, with a child whose tag is the reserved
    key: text [hi] and one child of tag [#text] and text [txt]. *)
Definition a_reserved (txt : string) : Element :=
  mkElement "a" [] (Some "hi") [leaf "#text" (Some txt)].

(** [<a>text<b/></a>] as objects: the root at 0, its child at 1. *)
Definition mixed_store : gmap loc ElementObj :=
  <[0 := mkElementObj "a" [] (Some "text") [1]]>
    (<[1 := mkElementObj "b" [] None []]> ∅).

(** [<r xmlns:n="u" n:k="1"><n:a/>t<b n:k="2" k="3"/></r>] as the parser
    delivers it, as objects: the root at 0, its children at 1 and 2. *)
Definition ns_nested_store : gmap loc ElementObj :=
  <[0 := mkElementObj "r" [("{u}k", "1")] None [1; 2]]>
    (<[1 := mkElementObj "{u}a" [] None []]>
       (<[2 := mkElementObj "b" [("{u}k", "2"); ("k", "3")] None []]> ∅)).

(** [<a xmlns="u"/>] as one object at 0. *)
Definition ns_store : gmap loc ElementObj :=
  <[0 := mkElementObj "{u}a" [] None []]> ∅.
End Scenarios.


(** ** Vocabulary of the properties *)

(** The loop of lines 59-70 on its own, and the mapping that line 74 leaves
    in [result]: the attributes, updated with the children. *)
Definition convert_children (element_iter : list Element)
  (strip_namespaces preserve_mixed_content empty_elements_as_null : bool)
  : Exc XmlDict :=
  for_each (fun child children =>
    do child_tag <- clean_tag strip_namespaces (tag child) ;;
    do child_data <- xml_to_dict child strip_namespaces
                       preserve_mixed_content empty_elements_as_null ;;
    add_child children child_tag child_data)
    element_iter [].

Definition attributes_and_children (element : Element)
  (strip_namespaces preserve_mixed_content empty_elements_as_null : bool)
  : Exc XmlDict :=
  do result <- add_attributes strip_namespaces (attrib element) [] ;;
  do children <- convert_children (child_elements element) strip_namespaces
                   preserve_mixed_content empty_elements_as_null ;;
  Ok (dict_update result children).

(** How [xml_to_dict] leaves lines 73-84. *)
Definition flow_of (element : Element)
  (strip_namespaces preserve_mixed_content empty_elements_as_null : bool)
  : Exc Flow :=
  do result <- add_attributes strip_namespaces (attrib element) [] ;;
  do text_content <- get_text_content (text element) ;;
  do children <- convert_children (child_elements element) strip_namespaces
                   preserve_mixed_content empty_elements_as_null ;;
  Ok (combine preserve_mixed_content empty_elements_as_null
        result text_content children).

(** The child [c] is filed under the key [T]. *)
Definition has_tag (strip_namespaces : bool) (T : string) (c : Element) : bool :=
  match clean_tag strip_namespaces (tag c) with
  | Ok k => String.eqb k T
  | Raise _ => false
  end.

(** The children of [e] filed under [T], in document order. *)
Definition children_tagged (strip_namespaces : bool) (T : string)
  (e : Element) : list Element :=
  List.filter (has_tag strip_namespaces T) (child_elements e).

(** What a key holds after its children were added one by one. *)
Definition grouped (vs : list JsonValue) : option JsonValue :=
  match vs with
  | [] => None
  | [v] => Some v
  | _ => Some (JList vs)
  end.

(** Same-tag promotion at the key [T] of the output of [e]: one child is
    held as its own value, which is no list; two or more are held as the
    list of their values in document order. *)
Definition promotes_same_tag (e : Element) (sn pm en : bool) (T : string)
  : Prop :=
  exists (vs : list JsonValue) (d : XmlDict),
    map_exc (fun c => xml_to_dict c sn pm en) (children_tagged sn T e) = Ok vs
    /\ length vs = length (children_tagged sn T e)
    /\ xml_to_dict e sn pm en = Ok (JDict d)
    /\ dict_get T d = grouped vs
    /\ Forall (fun v => is_list v = false) vs.

(** Mixed content of [e] with trimmed text [t]: the output is the mapping of
    attributes and children, with [t] under ["#text"] exactly when
    [preserve_mixed_content] is set. *)
Definition keeps_mixed_text (e : Element) (sn pm en : bool) (t : string)
  : Prop :=
  exists (m d : XmlDict),
    attributes_and_children e sn pm en = Ok m
    /\ xml_to_dict e sn pm en = Ok (JDict d)
    /\ (dict_get "#text" d = Some (JStr t) <-> pm = true)
    /\ d = (if pm then dict_setitem "#text" (JStr t) m else m).

(** Only strings, [None], mappings and lists, at every depth. *)
Fixpoint no_number_no_boolean (v : JsonValue) : bool :=
  match v with
  | JNone => true
  | JStr _ => true
  | JBool _ => false
  | JInt _ => false
  | JFloat _ => false
  | JList l => forallb no_number_no_boolean l
  | JDict d => forallb (fun kv => no_number_no_boolean (snd kv)) d
  end.

(** Where lists may sit. [shaped false v]: [v] is no list; [shaped true v]:
    [v] is the value of a mapping entry and may be a list, of two items at
    least, none of them a list. Below [v] the same holds throughout. *)
Fixpoint shaped (as_entry : bool) (v : JsonValue) : bool :=
  match v with
  | JList l => as_entry && Nat.leb 2 (length l) && forallb (shaped false) l
  | JDict d => forallb (fun kv => shaped true (snd kv)) d
  | _ => true
  end.

(** Number of occurrences of [c] in [s]. *)
Fixpoint str_count (c : ascii) (s : string) : nat :=
  match s with
  | EmptyString => 0
  | String a r => (if Ascii.eqb a c then 1 else 0) + str_count c r
  end.

(** The part of [s] after the first [c]; [s] itself without a [c]. *)
Fixpoint str_after (c : ascii) (s : string) : string :=
  match s with
  | EmptyString => EmptyString
  | String a r => if Ascii.eqb a c then r else str_after c r
  end.

(** Every element name and attribute name of the tree satisfies [P]. *)
Fixpoint all_names (P : string -> bool) (e : Element) : bool :=
  let '(mkElement e_tag e_attrib _ kids) := e in
  P e_tag && forallb (fun kv => P (fst kv)) e_attrib
  && forallb (all_names P) kids.

Definition at_most_one_brace (s : string) : bool :=
  Nat.leb (str_count "}" s) 1.

Definition no_brace (s : string) : bool := negb (str_contains "}" s).

(** The tree is a tree of [dict]s: no attribute name occurs twice on an
    element. *)
Fixpoint attribs_are_dicts (e : Element) : Prop :=
  let '(mkElement _ e_attrib _ kids) := e in
  NoDup (dict_keys e_attrib)
  /\ fold_right (fun c P => attribs_are_dicts c /\ P) True kids.

(** The key under which a child of tag [t] is filed, the value a child
    converts to, and both for every child in document order. *)
Definition key_of (strip_namespaces : bool) (t : string) : string :=
  if strip_namespaces && str_contains "}" t then str_after "}" t else t.

Definition value_of (sn pm en : bool) (c : Element) : JsonValue :=
  match xml_to_dict c sn pm en with
  | Ok v => v
  | Raise _ => JNone
  end.

Definition filed (sn pm en : bool) (kids : list Element)
  : list (string * JsonValue) :=
  map (fun c => (key_of sn (tag c), value_of sn pm en c)) kids.

(** The values filed under [T], in order. *)
Definition values_under (T : string) (l : list (string * JsonValue))
  : list JsonValue :=
  map snd (List.filter (fun p => String.eqb (fst p) T) l).

(** What lines 64-70 store for a child whose key holds [old]. *)
Definition merged_entry (old : option JsonValue) (v : JsonValue) : JsonValue :=
  match old with
  | None => v
  | Some (JList l) => JList (l ++ [v])
  | Some cur => JList [cur; v]
  end.

Definition file_child (children : XmlDict) (p : string * JsonValue) : XmlDict :=
  dict_setitem (fst p) (merged_entry (dict_get (fst p) children) (snd p))
    children.

(** An attribute entry of [result]. *)
Definition attr_entry (kv : string * JsonValue) : Prop :=
  exists k s : string, kv = (("@" ++ k)%string, JStr s).

(** A well-formed entry of an output mapping. *)
Definition entry_ok (kv : string * JsonValue) : Prop :=
  shaped true (snd kv) = true /\ no_number_no_boolean (snd kv) = true.

(** A well-formed output value. *)
Definition value_ok (v : JsonValue) : Prop :=
  shaped false v = true /\ no_number_no_boolean v = true.

(** A well-formed way out of lines 73-84: a value returned there is
    well-formed, and a [result] that reaches line 86 is a non-empty mapping
    of well-formed entries. *)
Definition flow_ok (f : Flow) : Prop :=
  match f with
  | EarlyReturn v => value_ok v
  | FallThrough result =>
      dict_truthy result = true /\ Forall entry_ok result
  end.

(** Every character of [s] satisfies [P]. *)
Fixpoint str_all (P : ascii -> bool) (s : string) : bool :=
  match s with
  | EmptyString => true
  | String a r => P a && str_all P r
  end.

(** What the normaliser makes of a name, of an attribute mapping and of a
    tree, as plain functions. *)
Definition local_name (s : string) : string :=
  if str_contains "}" s then str_after "}" s else s.

Definition normalized_attrib (a : Dict string) : Dict string :=
  fold_left (fun acc kv => dict_setitem (local_name (fst kv)) (snd kv) acc) a [].

Fixpoint normalized (e : Element) : Element :=
  let '(mkElement e_tag e_attrib e_text kids) := e in
  mkElement (local_name e_tag) (normalized_attrib e_attrib) e_text
    (map normalized kids).

(** Two passes of the normaliser leave what one pass leaves. *)
Definition idempotent_on (tree : ElementTree) (strip_namespaces : bool) : Prop :=
  exists once,
    preprocess_xml_tree tree strip_namespaces = Ok once
    /\ preprocess_xml_tree once strip_namespaces = Ok once.

(** A computation that leaves every store as it found it, whatever it
    returns or raises. *)
Definition read_only {A : Type} (m : M A) : Prop :=
  forall st, snd (m st) = st.

(** ** [convert_xml_to_json], lines 167-176: from the parsed tree to [json_data]

    The tree is normalised in place, then its root is converted; with
    [preserve_root] the value is wrapped in a mapping of one entry, keyed
    by the tag the root has by then. *)
Definition json_data (tree : ElementTree)
  (preserve_root strip_namespaces preserve_mixed_content
     empty_elements_as_null : bool) : Exc JsonValue :=
  do tree <- preprocess_xml_tree tree strip_namespaces ;;
  let root := getroot tree in
  if preserve_root then
    do value <- xml_to_dict root strip_namespaces preserve_mixed_content
                  empty_elements_as_null ;;
    Ok (JDict [(tag root, value)])
  else
    xml_to_dict root strip_namespaces preserve_mixed_content
      empty_elements_as_null.

(** The same lines on the store: the key [root.tag] is read after the
    normaliser has run and before the root is converted. *)
Definition json_data_at (depth : nat) (root : loc)
  (preserve_root strip_namespaces preserve_mixed_content
     empty_elements_as_null : bool) : M JsonValue :=
  (do _ <- preprocess_xml_tree_at depth root strip_namespaces ;;
   if preserve_root then
     do root_tag <- st_read obj_tag root ;;
     do value <- xml_to_dict_at depth root strip_namespaces
                   preserve_mixed_content empty_elements_as_null ;;
     st_ret (JDict [(root_tag, value)])
   else
     xml_to_dict_at depth root strip_namespaces preserve_mixed_content
       empty_elements_as_null)%st.

(** ** More vocabulary *)

(** The entries lines 48-51 write for attributes whose cleaned names
    differ: one per attribute, in order. *)
Definition attribute_entries (sn : bool) (a : Dict string) : XmlDict :=
  map (fun kv => (("@" ++ key_of sn (fst kv))%string, JStr (snd kv))) a.

(** The value of the last attribute whose cleaned name is [K]. *)
Definition last_attribute (sn : bool) (K : string) (a : Dict string)
  : option string :=
  dict_get K (rev (map (fun kv => (key_of sn (fst kv), snd kv)) a)).

(** The entry that holds the trimmed text [t], when there is text. *)
Definition text_entry (t : string) : XmlDict :=
  if str_truthy t then [("#text", JStr t)] else [].

(** The trimmed text of lines 54-56 as a plain function. *)
Definition trimmed_text (x : option string) : string :=
  match x with
  | Some s => str_strip s
  | None => ""
  end.

Definition no_children (kids : list Element) : bool :=
  match kids with
  | [] => true
  | _ :: _ => false
  end.

(** No element of the tree has both children and text that is not blank. *)
Fixpoint no_mixed_content (e : Element) : bool :=
  let '(mkElement _ _ e_text kids) := e in
  (no_children kids || negb (str_truthy (trimmed_text e_text)))
  && forallb no_mixed_content kids.

(** No element of the tree is empty: without attributes, without
    children and without text other than white space. *)
Fixpoint no_empty_element (e : Element) : bool :=
  let '(mkElement _ e_attrib e_text kids) := e in
  negb (negb (dict_truthy e_attrib) && no_children kids
        && negb (str_truthy (trimmed_text e_text)))
  && forallb no_empty_element kids.

(** No [None] in the value, at any depth. *)
Fixpoint no_none (v : JsonValue) : bool :=
  match v with
  | JNone => false
  | JList l => forallb no_none l
  | JDict d => forallb (fun kv => no_none (snd kv)) d
  | _ => true
  end.

(** No mapping in the value, at any depth, has a key twice. *)
Fixpoint unique_keys (v : JsonValue) : Prop :=
  match v with
  | JList l => fold_right (fun x P => unique_keys x /\ P) True l
  | JDict d =>
      NoDup (map fst d)
      /\ fold_right (fun kv P => unique_keys (snd kv) /\ P) True d
  | _ => True
  end.

(** The entry of [result] for one attribute whose name is already clean. *)
Definition at_entry (kv : string * string) : string * JsonValue :=
  (("@" ++ fst kv)%string, JStr (snd kv)).

(** The tree with every name forgotten: texts, attribute values and shape
    are left. [skeleton] forgets the attributes as well. *)
Fixpoint nameless (e : Element) : Element :=
  let '(mkElement _ e_attrib e_text kids) := e in
  mkElement "" (map (fun kv => ("", snd kv)) e_attrib) e_text (map nameless kids).

Fixpoint skeleton (e : Element) : Element :=
  let '(mkElement _ _ e_text kids) := e in
  mkElement "" [] e_text (map skeleton kids).

(** On every element of the tree, the attribute names are still distinct
    once their namespaces are cut off. *)
Fixpoint names_stay_distinct (e : Element) : Prop :=
  let '(mkElement _ e_attrib _ kids) := e in
  NoDup (map local_name (dict_keys e_attrib))
  /\ fold_right (fun c P => names_stay_distinct c /\ P) True kids.

(** The store holds the tree [e] at [l], with the objects of its elements
    at the locations [ls], in document order. *)
Inductive laid_out (st : gmap loc ElementObj) : loc -> Element -> list loc -> Prop :=
| laid_out_node (l : loc) (o : ElementObj) (kids : list Element)
    (below : list (list loc)) :
    st !! l = Some o ->
    Forall3 (laid_out st) (obj_children o) kids below ->
    laid_out st l (mkElement (obj_tag o) (obj_attrib o) (obj_text o) kids)
      (l :: concat below).

(** What lines 99-108 make of one object, and of the objects at [ls]. *)
Definition normalized_obj (o : ElementObj) : ElementObj :=
  mkElementObj (local_name (obj_tag o)) (normalized_attrib (obj_attrib o))
    (obj_text o) (obj_children o).

Definition normalized_store (ls : list loc) (st : gmap loc ElementObj)
  : gmap loc ElementObj :=
  fold_left (fun s l => alter normalized_obj l s) ls st.

(** The tree that [Scenarios.ns_nested_store] holds at 0. *)
Definition ns_nested_tree : Element :=
  mkElement "r" [("{u}k", "1")] None
    [mkElement "{u}a" [] None [];
     mkElement "b" [("{u}k", "2"); ("k", "3")] None []].

(** What a call into the world gives: a value, or an exception of the
    world's own kind. *)
Inductive Outcome (E A : Type) : Type :=
| Returns (a : A)
| Raises (e : E).

Arguments Returns {E A} a.
Arguments Raises {E A} e.

(** ** [batch_convert_xml_to_json]

    The file system is the world [World], passed along; what the code
    asks of it and of [pathlib] are the parameters of the section:
    [path_exists], [path_is_dir], [path_is_file] and [path_iterdir] for
    the methods of [Path], [path_suffix_lower] for [f.suffix.lower()],
    [json_beside] for [output_path / (xml_file.stem + '.json')], and
    [convert_xml_to_json] for the conversion of one file with the options
    of the batch, which returns a boolean or raises, and changes the
    world. Log messages are left out. *)
Section Batch.
Context {World Path Error : Type}.
Variable path_exists : Path -> World -> bool.
Variable path_is_dir : Path -> World -> bool.
Variable path_is_file : Path -> World -> bool.
Variable path_iterdir : Path -> World -> Outcome Error (list Path).
Variable path_suffix_lower : Path -> string.
Variable json_beside : Path -> Path -> Path.
Variable convert_xml_to_json : Path -> Path -> World -> Outcome Error bool * World.

(** Lines 267-268. *)
Definition select_xml_files (listing : list Path) (w : World) : list Path :=
  List.filter
    (fun f => String.eqb (path_suffix_lower f) ".xml" && path_is_file f w)
    listing.

(** Lines 276-283: the loop, with [success_count]. *)
Fixpoint convert_each (output_path : Path) (xml_files : list Path)
  (success_count : nat) (w : World) {struct xml_files} : Outcome Error nat * World :=
  match xml_files with
  | [] => (Returns success_count, w)
  | xml_file :: rest =>
      let output_file := json_beside output_path xml_file in
      match convert_xml_to_json xml_file output_file w with
      | (Returns true, w') => convert_each output_path rest (success_count + 1) w'
      | (Returns false, w') => convert_each output_path rest success_count w'
      | (Raises err, w') => (Raises err, w')
      end
  end.

Definition batch_convert_xml_to_json (input_dir : Path)
  (output_dir : option Path) (w : World) : Outcome Error bool * World :=
  let input_path := input_dir in
  if negb (path_exists input_path w) then (Returns false, w)
  else if negb (path_is_dir input_path w) then (Returns false, w)
  else
    let output_path :=
      match output_dir with
      | Some d => d
      | None => input_path
      end in
    match path_iterdir input_path w with
    | Raises err => (Raises err, w)
    | Returns listing =>
        let xml_files := select_xml_files listing w in
        match xml_files with
        | [] => (Returns false, w)
        | _ :: _ =>
            match convert_each output_path xml_files 0 w with
            | (Returns success_count, w') =>
                (Returns (Nat.eqb success_count (length xml_files)), w')
            | (Raises err, w') => (Raises err, w')
            end
        end
    end.

(** What each conversion of the batch returned, in order, up to the first
    that raised, and the world after them. *)
Fixpoint attempts (output_path : Path) (xml_files : list Path) (w : World)
  {struct xml_files} : list (Outcome Error bool) * World :=
  match xml_files with
  | [] => ([], w)
  | xml_file :: rest =>
      match convert_xml_to_json xml_file (json_beside output_path xml_file) w with
      | (Returns b, w') =>
          let '(results, w'') := attempts output_path rest w' in
          (Returns b :: results, w'')
      | (Raises err, w') => ([Raises err], w')
      end
  end.
End Batch.

Definition returned_true {Error : Type} (r : Outcome Error bool) : bool :=
  match r with
  | Returns true => true
  | _ => false
  end.

Definition returned {Error : Type} (r : Outcome Error bool) : bool :=
  match r with
  | Returns _ => true
  | Raises _ => false
  end.

(** A world of three files for the batch: paths are names, the world is
    the list of names converted so far; [b.xml] does not convert. *)
Definition toy_suffix (p : string) : string :=
  if String.eqb p "notes.txt" then ".txt" else ".xml".

Definition toy_convert (f out : string) (w : list string)
  : Outcome string bool * list string :=
  (Returns (negb (String.eqb f "b.xml")), w ++ [f]).

(** The keys of a list, each at its first occurrence. *)
Fixpoint first_occurrences (ks : list string) : list string :=
  match ks with
  | [] => []
  | k :: r => k :: List.filter (fun x => negb (String.eqb x k)) (first_occurrences r)
  end.

(** The keys under which the children of [e] are filed, in document order. *)
Definition child_keys (sn : bool) (e : Element) : list string :=
  map (fun c => key_of sn (tag c)) (child_elements e).

(** [kept pm e t]: the trimmed text [t] of [e] gets an entry. *)
Definition text_kept (pm : bool) (e : Element) (t : string) : bool :=
  str_truthy t && (pm || no_children (child_elements e)).

Definition starts_with_at (k : string) : bool :=
  match k with
  | String a _ => Ascii.eqb a "@"
  | EmptyString => false
  end.

(** [x] is none of [ks]. *)
Definition absent_from (ks : list string) (x : string) : bool :=
  negb (existsb (String.eqb x) ks).


(** The same toy world, where the conversion of [b.xml] raises. *)
Definition toy_raising_convert (f out : string) (w : list string)
  : Outcome string bool * list string :=
  if String.eqb f "b.xml" then (Raises "PermissionError", w ++ [f])
  else (Returns true, w ++ [f]).

(** ** The names the parser delivers

    [ET.parse] (line 165) is the only producer of the elements that the
    normaliser and the converter are given. Its tags and attribute names
    are XML names, [local], or names in a namespace, [{uri}local]. An XML
    name begins with a letter, [_] or [:] and goes on with letters,
    digits, [.], [-], [_], [:] and the middle dot; the URI holds no
    closing brace, the separator, which the parser refuses in a namespace
    URI. Characters are the code points below 256, as everywhere here:
    the letters are A-Z, a-z and those of 192-214, 216-246 and 248-255. *)
Definition in_range (lo hi : nat) (a : ascii) : bool :=
  Nat.leb lo (nat_of_ascii a) && Nat.leb (nat_of_ascii a) hi.

Definition name_start_char (a : ascii) : bool :=
  in_range 65 90 a || in_range 97 122 a || Ascii.eqb a "_" || Ascii.eqb a ":"
  || in_range 192 214 a || in_range 216 246 a || in_range 248 255 a.

Definition name_char (a : ascii) : bool :=
  name_start_char a || in_range 48 57 a || Ascii.eqb a "." || Ascii.eqb a "-"
  || Nat.eqb (nat_of_ascii a) 183.

Definition xml_name (s : string) : bool :=
  match s with
  | EmptyString => false
  | String a r => name_start_char a && str_all name_char r
  end.

Definition parser_name (s : string) : bool :=
  match s with
  | EmptyString => false
  | String a r =>
      if Ascii.eqb a "{"
      then str_contains "}" r && xml_name (str_after "}" r)
      else xml_name s
  end.

(** ** Documents nested deep

    [nested n] is [<a><a>...<a/>...</a></a>] with [n] elements around the
    innermost one, and [nested_store i n] holds it as objects at the
    locations [i], [i + 1], ..., [i + n]. *)
Fixpoint nested (n : nat) : Element :=
  match n with
  | O => mkElement "a" [] None []
  | S m => mkElement "a" [] None [nested m]
  end.

Fixpoint nested_store (i n : nat) : gmap loc ElementObj :=
  match n with
  | O => <[i := mkElementObj "a" [] None []]> ∅
  | S m => <[i := mkElementObj "a" [] None [S i]]> (nested_store (S i) m)
  end.

(** * Properties *)

(** ** Induction on elements *)

Section ElementInduction.
Variable P : Element -> Prop.
Hypothesis step : forall e_tag e_attrib e_text kids,
    Forall P kids -> P (mkElement e_tag e_attrib e_text kids).

Fixpoint Element_nested_ind (e : Element) : P e :=
  match e with
  | mkElement e_tag e_attrib e_text kids =>
      step e_tag e_attrib e_text kids
        ((fix all (l : list Element) : Forall P l :=
            match l with
            | [] => @Forall_nil _ P
            | c :: l' => @Forall_cons _ P c l' (Element_nested_ind c) (all l')
            end) kids)
  end.
End ElementInduction.

(** ** Loops *)

Lemma for_each_app {A S : Type} (body : A -> S -> Exc S) (l1 l2 : list A) (s : S) :
  for_each body (l1 ++ l2) s
  = do s' <- for_each body l1 s ;; for_each body l2 s'.
Proof.
  revert s; induction l1 as [|x l1 IH]; intros s; simpl; [reflexivity|].
  destruct (body x s); simpl; [apply IH | reflexivity].
Qed.


Lemma map_exc_length {A B : Type} (f : A -> Exc B) (l : list A) (l' : list B) :
  map_exc f l = Ok l' -> length l' = length l.
Proof.
  revert l'; induction l as [|x l IH]; intros l' H; simpl in H.
  - injection H as <-. reflexivity.
  - destruct (f x); simpl in H; [|discriminate].
    destruct (map_exc f l) as [r|]; simpl in H; [|discriminate].
    injection H as <-. simpl. f_equal. apply IH. reflexivity.
Qed.


(** ** Strings *)

Lemma str_split1_contains (c : ascii) (s : string) :
  str_contains c s = true ->
  exists h, str_split1 c s = [h; str_after c s].
Proof.
  induction s as [|a r IH]; simpl; [discriminate|].
  destruct (Ascii.eqb a c).
  - intros _. eexists. reflexivity.
  - intros H. destruct (IH H) as [h ->]. eexists. reflexivity.
Qed.

Lemma str_split1_without (c : ascii) (s : string) :
  str_contains c s = false -> str_split1 c s = [s].
Proof.
  induction s as [|a r IH]; simpl; [reflexivity|].
  destruct (Ascii.eqb a c); [discriminate|].
  intros H. rewrite (IH H). reflexivity.
Qed.

Lemma str_contains_count (c : ascii) (s : string) :
  str_contains c s = negb (Nat.eqb (str_count c s) 0).
Proof.
  induction s as [|a r IH]; simpl; [reflexivity|].
  destruct (Ascii.eqb a c); simpl; [reflexivity | exact IH].
Qed.

Lemma str_count_after (c : ascii) (s : string) :
  str_count c (str_after c s) = pred (str_count c s).
Proof.
  induction s as [|a r IH]; simpl; [reflexivity|].
  destruct (Ascii.eqb a c); simpl; [reflexivity | exact IH].
Qed.

(** The subscript [[1]] after the test [in] never fails. *)
Lemma split_strip_ok (s : string) :
  (if str_contains "}" s then list_getitem (str_split1 "}" s) 1 else Ok s)
  = Ok (if str_contains "}" s then str_after "}" s else s).
Proof.
  destruct (str_contains "}" s) eqn:E; [|reflexivity].
  destruct (str_split1_contains _ _ E) as [h ->]. reflexivity.
Qed.

Lemma clean_tag_ok (sn : bool) (t : string) :
  clean_tag sn t
  = Ok (if sn && str_contains "}" t then str_after "}" t else t).
Proof.
  unfold clean_tag. destruct sn; simpl; [apply split_strip_ok | reflexivity].
Qed.

Lemma preprocess_tag_ok (t : string) :
  preprocess_tag t = Ok (if str_contains "}" t then str_after "}" t else t).
Proof. apply split_strip_ok. Qed.

Lemma preprocess_key_ok (k : string) :
  preprocess_key k = Ok (if str_contains "}" k then str_after "}" k else k).
Proof. apply split_strip_ok. Qed.



Lemma str_truthy_true (s : string) : str_truthy s = true <-> s <> "".
Proof. destruct s; simpl; split; congruence. Qed.

(** ** Dictionaries *)

Section DictFacts.
Context {V : Type}.
Implicit Types (d : Dict V) (k : string) (v : V).

Lemma dict_get_setitem_eq k v d : dict_get k (dict_setitem k v d) = Some v.
Proof.
  induction d as [|[k' v'] d IH]; simpl.
  - rewrite String.eqb_refl. reflexivity.
  - destruct (String.eqb k k') eqn:E; simpl.
    + rewrite String.eqb_refl. reflexivity.
    + rewrite E. exact IH.
Qed.

Lemma dict_get_setitem_ne k k' v d :
  k <> k' -> dict_get k' (dict_setitem k v d) = dict_get k' d.
Proof.
  intros N. induction d as [|[k0 v0] d IH]; simpl.
  - destruct (String.eqb_spec k' k); [congruence | reflexivity].
  - destruct (String.eqb_spec k k0) as [->|]; simpl.
    + destruct (String.eqb_spec k' k0); [congruence | reflexivity].
    + destruct (String.eqb_spec k' k0); [reflexivity | exact IH].
Qed.

Lemma dict_setitem_truthy k v d : dict_truthy (dict_setitem k v d) = true.
Proof.
  destruct d as [|[k' v'] d]; simpl; [reflexivity|].
  destruct (String.eqb k k'); reflexivity.
Qed.

Lemma dict_get_None_keys k d : dict_get k d = None <-> ~ In k (dict_keys d).
Proof.
  induction d as [|[k' v'] d IH]; simpl; [tauto|].
  destruct (String.eqb_spec k k') as [->|N].
  - split; [discriminate | intros H; exfalso; apply H; left; reflexivity].
  - rewrite IH. split; intros H; [intros [E|I]; [congruence | tauto] | tauto].
Qed.

Lemma dict_setitem_new k v d :
  ~ In k (dict_keys d) -> dict_setitem k v d = d ++ [(k, v)].
Proof.
  induction d as [|[k' v'] d IH]; simpl; intros H; [reflexivity|].
  destruct (String.eqb_spec k k') as [->|N]; [exfalso; apply H; left; reflexivity|].
  rewrite IH; [reflexivity | tauto].
Qed.

Lemma dict_keys_setitem k v d :
  dict_keys (dict_setitem k v d)
  = if dict_in k d then dict_keys d else dict_keys d ++ [k].
Proof.
  unfold dict_in. induction d as [|[k' v'] d IH]; simpl; [reflexivity|].
  destruct (String.eqb_spec k k') as [->|N]; simpl; [reflexivity|].
  rewrite IH. destruct (dict_get k d); reflexivity.
Qed.

Lemma dict_setitem_NoDup k v d :
  NoDup (dict_keys d) -> NoDup (dict_keys (dict_setitem k v d)).
Proof.
  intros H. rewrite dict_keys_setitem. unfold dict_in.
  destruct (dict_get k d) eqn:E; [exact H|].
  apply dict_get_None_keys in E.
  apply NoDup_app; [exact H | |].
  - apply NoDup_cons; [simpl; tauto | apply NoDup_nil].
  - intros a Ha [<-|[]]. contradiction.
Qed.

Lemma dict_update_snoc d o k v :
  dict_update d (o ++ [(k, v)]) = dict_setitem k v (dict_update d o).
Proof. unfold dict_update. rewrite fold_left_app. reflexivity. Qed.

Lemma dict_update_truthy d o :
  dict_truthy o = true -> dict_truthy (dict_update d o) = true.
Proof.
  destruct o as [|kv o _] using rev_ind; [discriminate|].
  intros _. destruct kv as [k v]. rewrite dict_update_snoc.
  apply dict_setitem_truthy.
Qed.

(** After [d.update(o)] a key of [o] holds what it holds in [o], and any
    other key what it held in [d]. *)
Lemma dict_get_update d o k :
  NoDup (dict_keys o) ->
  dict_get k (dict_update d o)
  = match dict_get k o with
    | Some v => Some v
    | None => dict_get k d
    end.
Proof.
  induction o as [|[k' v'] o IH] using rev_ind; intros ND; [reflexivity|].
  rewrite dict_update_snoc.
  unfold dict_keys in ND. rewrite map_app in ND. simpl in ND.
  apply NoDup_remove in ND. rewrite app_nil_r in ND.
  destruct ND as (ND & Hno).
  destruct (String.eqb_spec k' k) as [->|N].
  - rewrite dict_get_setitem_eq.
    assert (Hk : dict_get k o = None) by (apply dict_get_None_keys; exact Hno).
    clear IH ND Hno. induction o as [|[k0 v0] o IHo]; simpl in *.
    + rewrite String.eqb_refl. reflexivity.
    + destruct (String.eqb k k0); [discriminate | apply IHo; exact Hk].
  - rewrite dict_get_setitem_ne by exact N. rewrite IH by exact ND.
    assert (E : dict_get k (o ++ [(k', v')]) = dict_get k o).
    { clear -N. revert N. induction o as [|[k0 v0] o IHo]; simpl; intros N.
      - destruct (String.eqb_spec k k'); [congruence | reflexivity].
      - destruct (String.eqb k k0); [reflexivity | apply IHo; exact N]. }
    rewrite E. reflexivity.
Qed.

(** Updating the empty [dict] with a [dict] copies it, order included. *)
Lemma dict_update_append d o :
  NoDup (dict_keys (d ++ o)) -> dict_update d o = d ++ o.
Proof.
  revert d. induction o as [|[k v] o IH]; intros d ND; simpl.
  - rewrite app_nil_r. reflexivity.
  - unfold dict_update in *. simpl.
    assert (Hk : ~ In k (dict_keys d)).
    { unfold dict_keys in ND. rewrite map_app in ND. simpl in ND.
      apply NoDup_remove in ND. destruct ND as (_ & Hno).
      intros I. apply Hno. apply in_or_app. left. exact I. }
    rewrite (dict_setitem_new k v d Hk).
    rewrite IH; rewrite <- app_assoc; simpl; [reflexivity | exact ND].
Qed.
End DictFacts.

(** ** The steps of [xml_to_dict] *)

Lemma dict_setitem_setitem {V : Type} (k : string) (x y : V) (d : Dict V) :
  dict_setitem k x (dict_setitem k y d) = dict_setitem k x d.
Proof.
  induction d as [|[k' v'] d IH]; simpl.
  - rewrite String.eqb_refl. reflexivity.
  - destruct (String.eqb k k') eqn:E; simpl; rewrite ?String.eqb_refl, ?E;
      [reflexivity | rewrite IH; reflexivity].
Qed.

Lemma Forall_dict_setitem {V : Type} (P : string * V -> Prop) (k : string) (v : V)
  (d : Dict V) :
  Forall P d -> P (k, v) -> Forall P (dict_setitem k v d).
Proof.
  intros Hd Hk. induction Hd as [|[k' v'] d Hx Hd IH]; simpl.
  - constructor; [exact Hk | constructor].
  - destruct (String.eqb k k'); constructor; assumption.
Qed.

Lemma Forall_dict_update {V : Type} (P : string * V -> Prop) (d o : Dict V) :
  Forall P d -> Forall P o -> Forall P (dict_update d o).
Proof.
  intros Hd Ho. revert d Hd. unfold dict_update.
  induction Ho as [|[k v] o Hx Ho IH]; intros d Hd; simpl; [exact Hd|].
  apply IH. apply Forall_dict_setitem; assumption.
Qed.

Lemma dict_get_Forall {V : Type} (P : string * V -> Prop) (k : string) (v : V)
  (d : Dict V) :
  Forall P d -> dict_get k d = Some v -> exists k', P (k', v).
Proof.
  intros Hd. induction Hd as [|[k' v'] d Hx Hd IH]; simpl; [discriminate|].
  destruct (String.eqb k k').
  - intros [= <-]. exists k'. exact Hx.
  - exact IH.
Qed.

(** Lines 64-70 never raise; they store [merged_entry]. *)
Lemma add_child_ok (children : XmlDict) (child_tag : string) (child_data : JsonValue) :
  add_child children child_tag child_data
  = Ok (file_child children (child_tag, child_data)).
Proof.
  unfold add_child, file_child, dict_in, dict_getitem, merged_entry. simpl.
  destruct (dict_get child_tag children) as [cur|] eqn:E; [|reflexivity].
  simpl. destruct cur; simpl;
    rewrite ?dict_get_setitem_eq, ?E; simpl;
    rewrite ?dict_setitem_setitem; reflexivity.
Qed.

(** Lines 48-51 never raise, and leave attribute entries only. *)
Lemma attributes_loop (sn : bool) (a : Dict string) (r0 : XmlDict) :
  Forall attr_entry r0 ->
  exists r,
    for_each (fun kv result =>
      do clean_key <- clean_tag sn (fst kv) ;;
      Ok (dict_setitem ("@" ++ clean_key)%string (JStr (snd kv)) result)) a r0 = Ok r
    /\ Forall attr_entry r
    /\ (dict_truthy r = dict_truthy r0 || dict_truthy a).
Proof.
  revert r0. induction a as [|[k s] a IH]; intros r0 H0; simpl.
  - exists r0. rewrite orb_false_r. auto.
  - rewrite clean_tag_ok. simpl.
    destruct (IH (dict_setitem ("@" ++ key_of sn k)%string (JStr s) r0)) as (r & E & F & T).
    { apply Forall_dict_setitem; [exact H0|]. eexists _, _. reflexivity. }
    exists r. unfold key_of in E. rewrite E. split; [reflexivity|]. split; [exact F|].
    rewrite T, dict_setitem_truthy, orb_true_r. reflexivity.
Qed.

Lemma add_attributes_ok (sn : bool) (a : Dict string) :
  exists r,
    add_attributes sn a [] = Ok r
    /\ Forall attr_entry r
    /\ dict_truthy r = dict_truthy a.
Proof.
  unfold add_attributes. destruct (dict_truthy a) eqn:Ta.
  - destruct (attributes_loop sn a [] (Forall_nil _)) as (r & E & F & T).
    exists r. rewrite Ta in T. auto.
  - exists []. auto.
Qed.

(** Lines 54-56 never raise. *)
Lemma get_text_content_ok (t : option string) :
  get_text_content t
  = Ok (match t with Some s => str_strip s | None => "" end).
Proof.
  unfold get_text_content. destruct t as [[|a s]|]; reflexivity.
Qed.

Lemma xml_to_dict_unfold (e : Element) (sn pm en : bool) :
  xml_to_dict e sn pm en
  = do f <- flow_of e sn pm en ;; Ok (finish en f).
Proof.
  destruct e as [t a x kids]. unfold flow_of, convert_children. simpl.
  destruct (add_attributes sn a []); simpl; [|reflexivity].
  destruct (get_text_content x); simpl; [|reflexivity].
  match goal with |- context [for_each ?b kids []] =>
    destruct (for_each b kids []) end; reflexivity.
Qed.

(** The loop over the children, given that each child converts. *)
Lemma convert_children_fold (kids : list Element) (sn pm en : bool) (acc : XmlDict) :
  Forall (fun c => exists v, xml_to_dict c sn pm en = Ok v) kids ->
  for_each (fun child children =>
    do child_tag <- clean_tag sn (tag child) ;;
    do child_data <- xml_to_dict child sn pm en ;;
    add_child children child_tag child_data) kids acc
  = Ok (fold_left file_child (filed sn pm en kids) acc).
Proof.
  intros H. revert acc. induction H as [|c kids [v Hv] _ IH]; intros acc; simpl.
  - reflexivity.
  - rewrite clean_tag_ok. simpl. unfold value_of. rewrite Hv. simpl.
    rewrite add_child_ok. simpl. rewrite IH. reflexivity.
Qed.

(** ** The shape of the output *)

Lemma shaped_not_list (v : JsonValue) : shaped false v = true -> is_list v = false.
Proof. destruct v; simpl; congruence. Qed.

Lemma shaped_as_entry (v : JsonValue) : shaped false v = true -> shaped true v = true.
Proof. destruct v; simpl; congruence. Qed.

Lemma shaped_entry_not_list (v : JsonValue) :
  shaped true v = true -> is_list v = false -> shaped false v = true.
Proof. destruct v; simpl; congruence. Qed.

Lemma value_ok_entry (k : string) (v : JsonValue) : value_ok v -> entry_ok (k, v).
Proof. intros [S N]. split; [apply shaped_as_entry; exact S | exact N]. Qed.

Lemma value_ok_dict (d : XmlDict) : Forall entry_ok d -> value_ok (JDict d).
Proof.
  intros H. unfold value_ok. simpl.
  induction H as [|kv d [S N] _ [IS IN]]; simpl; [auto|].
  rewrite S, N, IS, IN. auto.
Qed.

Lemma attr_entry_ok (kv : string * JsonValue) : attr_entry kv -> entry_ok kv.
Proof. intros (k & s & ->). split; reflexivity. Qed.

Lemma merged_entry_ok (k : string) (old : option JsonValue) (v : JsonValue) :
  (forall cur, old = Some cur -> entry_ok (k, cur)) ->
  value_ok v -> entry_ok (k, merged_entry old v).
Proof.
  intros Hold [Sv Nv]. destruct old as [cur|]; simpl.
  2:{ apply value_ok_entry. split; assumption. }
  destruct (Hold cur eq_refl) as [Sc Nc]. simpl in Sc, Nc.
  assert (Hnl : is_list cur = false ->
                entry_ok (k, JList [cur; v])).
  { intros L. split; simpl.
    - rewrite (shaped_entry_not_list cur Sc L), Sv. reflexivity.
    - rewrite Nc, Nv. reflexivity. }
  destruct cur; try (apply Hnl; reflexivity).
  unfold entry_ok. cbn [snd shaped no_number_no_boolean merged_entry] in *.
  apply andb_prop in Sc. destruct Sc as [Sc All].
  apply andb_prop in Sc. destruct Sc as [_ Len]. apply Nat.leb_le in Len.
  split.
  - rewrite forallb_app, All, length_app. cbn [forallb length andb].
    rewrite Sv, andb_true_r. apply Nat.leb_le. lia.
  - rewrite forallb_app, Nc. cbn [forallb andb]. rewrite Nv. reflexivity.
Qed.

Lemma filed_entries_ok (l : list (string * JsonValue)) (acc : XmlDict) :
  Forall (fun p => value_ok (snd p)) l ->
  Forall entry_ok acc ->
  Forall entry_ok (fold_left file_child l acc).
Proof.
  intros H. revert acc. induction H as [|[k v] l Hv _ IH]; intros acc Hacc; simpl.
  - exact Hacc.
  - apply IH. unfold file_child. simpl.
    apply Forall_dict_setitem; [exact Hacc|].
    apply merged_entry_ok; [|exact Hv].
    intros cur Hc. destruct (dict_get_Forall _ _ _ _ Hacc Hc) as [k' Hk'].
    exact Hk'.
Qed.

Lemma filed_truthy (l : list (string * JsonValue)) :
  dict_truthy (fold_left file_child l []) = dict_truthy l.
Proof.
  destruct l as [|p l _] using rev_ind; [reflexivity|].
  rewrite fold_left_app. simpl. unfold file_child.
  rewrite dict_setitem_truthy. destruct l; reflexivity.
Qed.

Lemma values_under_snoc (T : string) (l : list (string * JsonValue)) (k : string)
  (v : JsonValue) :
  values_under T (l ++ [(k, v)])
  = values_under T l ++ (if String.eqb k T then [v] else []).
Proof.
  unfold values_under. rewrite List.filter_app, map_app. simpl.
  destruct (String.eqb k T); reflexivity.
Qed.

Lemma values_under_not_list (T : string) (l : list (string * JsonValue)) :
  Forall (fun p => is_list (snd p) = false) l ->
  Forall (fun v => is_list v = false) (values_under T l).
Proof.
  intros H. unfold values_under. induction H as [|p l Hp _ IH]; simpl.
  - constructor.
  - destruct (String.eqb (fst p) T); simpl; [constructor; assumption | exact IH].
Qed.

Lemma merged_grouped (vs : list JsonValue) (v : JsonValue) :
  Forall (fun u => is_list u = false) vs ->
  grouped (vs ++ [v]) = Some (merged_entry (grouped vs) v).
Proof.
  intros H. destruct vs as [|u [|u' vs]]; simpl; [reflexivity | | reflexivity].
  apply Forall_inv in H. destruct u; simpl in *; congruence.
Qed.

(** What the loop over the children leaves under each key. *)
Lemma filed_grouped (l : list (string * JsonValue)) :
  Forall (fun p => is_list (snd p) = false) l ->
  NoDup (dict_keys (fold_left file_child l []))
  /\ forall T, dict_get T (fold_left file_child l []) = grouped (values_under T l).
Proof.
  induction l as [|[k v] l IH] using rev_ind; intros H.
  - split; [apply NoDup_nil | reflexivity].
  - apply Forall_app in H. destruct H as [Hl _].
    destruct (IH Hl) as [ND G]. rewrite fold_left_app. simpl.
    unfold file_child. simpl. split.
    + apply dict_setitem_NoDup. exact ND.
    + intros T. rewrite values_under_snoc.
      destruct (String.eqb_spec k T) as [->|N].
      * rewrite dict_get_setitem_eq, G.
        symmetry. apply merged_grouped. apply values_under_not_list. exact Hl.
      * rewrite dict_get_setitem_ne by exact N. rewrite app_nil_r. apply G.
Qed.

(** The converter never raises, and it leaves lines 73-84 well. *)
Lemma flow_of_sound (e : Element) (sn pm en : bool) :
  exists f, flow_of e sn pm en = Ok f /\ flow_ok f /\ value_ok (finish en f).
Proof.
  revert sn pm en. induction e as [t a x kids IH] using Element_nested_ind.
  intros sn pm en.
  assert (Hkids : Forall (fun c => exists v, xml_to_dict c sn pm en = Ok v) kids).
  { eapply Forall_impl; [|exact IH]. simpl. intros c Hc.
    destruct (Hc sn pm en) as (f & Ef & _). rewrite xml_to_dict_unfold, Ef.
    eexists. reflexivity. }
  assert (Hvals : Forall (fun p => value_ok (snd p)) (filed sn pm en kids)).
  { unfold filed. apply Forall_map. eapply Forall_impl; [|exact IH]. simpl.
    intros c Hc. destruct (Hc sn pm en) as (f & Ef & _ & Vf).
    unfold value_of. rewrite xml_to_dict_unfold, Ef. exact Vf. }
  unfold flow_of, convert_children. simpl.
  destruct (add_attributes_ok sn a) as (r & -> & Fr & Tr). simpl.
  rewrite get_text_content_ok. simpl.
  rewrite (convert_children_fold kids sn pm en [] Hkids). simpl.
  eexists. split; [reflexivity|].
  assert (Er : Forall entry_ok r).
  { eapply Forall_impl; [|exact Fr]. apply attr_entry_ok. }
  assert (Ec := filed_entries_ok _ [] Hvals (Forall_nil _)).
  set (children := fold_left file_child (filed sn pm en kids) []) in *.
  set (tc := match x with Some s => str_strip s | None => "" end).
  assert (Hflow : flow_ok (combine pm en r tc children)).
  { unfold combine. destruct (dict_truthy children) eqn:Tc.
    - assert (Eu := Forall_dict_update entry_ok r children Er Ec).
      assert (Tu := dict_update_truthy r children Tc).
      destruct (str_truthy tc && pm); simpl.
      + split; [apply dict_setitem_truthy|].
        apply Forall_dict_setitem; [exact Eu | split; reflexivity].
      + split; assumption.
    - destruct (str_truthy tc); simpl.
      + destruct (dict_truthy r) eqn:Trr; simpl.
        * split; [apply dict_setitem_truthy|].
          apply Forall_dict_setitem; [exact Er | split; reflexivity].
        * split; reflexivity.
      + destruct (dict_truthy r) eqn:Trr; simpl.
        * split; [exact Trr | exact Er].
        * destruct en; split; reflexivity. }
  split; [exact Hflow|].
  destruct (combine pm en r tc children) as [v|res]; simpl in *; [exact Hflow|].
  destruct Hflow as [Tres Eres]. unfold final_return. rewrite Tres.
  apply value_ok_dict. exact Eres.
Qed.

Lemma xml_to_dict_sound (e : Element) (sn pm en : bool) :
  exists v, xml_to_dict e sn pm en = Ok v /\ value_ok v.
Proof.
  destruct (flow_of_sound e sn pm en) as (f & Ef & _ & Vf).
  exists (finish en f). rewrite xml_to_dict_unfold, Ef. auto.
Qed.

Lemma xml_to_dict_value_of (e : Element) (sn pm en : bool) :
  xml_to_dict e sn pm en = Ok (value_of sn pm en e).
Proof.
  unfold value_of. destruct (xml_to_dict_sound e sn pm en) as (v & -> & _).
  reflexivity.
Qed.

(** ** The normaliser as a function *)

Lemma normalized_attrib_loop (a : Dict string) (acc : Dict string) :
  for_each (fun kv new_attrib =>
    do new_key <- preprocess_key (fst kv) ;;
    Ok (dict_setitem new_key (snd kv) new_attrib)) a acc
  = Ok (fold_left (fun acc kv => dict_setitem (local_name (fst kv)) (snd kv) acc)
          a acc).
Proof.
  revert acc. induction a as [|[k v] a IH]; intros acc; simpl; [reflexivity|].
  rewrite preprocess_key_ok. simpl. apply IH.
Qed.

Lemma fold_setitem_NoDup (f : string -> string) (a acc : Dict string) :
  NoDup (dict_keys acc) ->
  NoDup (dict_keys
           (fold_left (fun acc kv => dict_setitem (f (fst kv)) (snd kv) acc) a acc)).
Proof.
  revert acc. induction a as [|[k v] a IH]; intros acc H; simpl; [exact H|].
  apply IH. apply dict_setitem_NoDup. exact H.
Qed.

Lemma normalized_attrib_NoDup (a : Dict string) : NoDup (dict_keys (normalized_attrib a)).
Proof. apply fold_setitem_NoDup. apply NoDup_nil. Qed.

Lemma preprocess_attrib_ok (a : Dict string) :
  preprocess_attrib a = Ok (normalized_attrib a).
Proof.
  unfold preprocess_attrib, rebuild_attrib. destruct (dict_truthy a) eqn:T.
  - rewrite normalized_attrib_loop. simpl. unfold dict_clear.
    rewrite dict_update_append; [reflexivity|]. apply normalized_attrib_NoDup.
  - destruct a; [reflexivity | discriminate].
Qed.

Lemma preprocess_element_ok (e : Element) :
  preprocess_element e = Ok (normalized e).
Proof.
  induction e as [t a x kids IH] using Element_nested_ind. simpl.
  rewrite preprocess_tag_ok, preprocess_attrib_ok. simpl.
  assert (E : map_exc preprocess_element kids = Ok (map normalized kids)).
  { induction IH as [|c kids Hc _ IHk]; simpl; [reflexivity|].
    rewrite Hc. simpl. rewrite IHk. reflexivity. }
  rewrite E. reflexivity.
Qed.

Lemma preprocess_xml_tree_ok (tree : ElementTree) (sn : bool) :
  preprocess_xml_tree tree sn
  = Ok (if sn then mkElementTree (normalized (getroot tree)) else tree).
Proof.
  unfold preprocess_xml_tree. destruct sn; [|reflexivity].
  rewrite preprocess_element_ok. reflexivity.
Qed.

(** ** Blank text *)

Lemma str_lstrip_blank (s : string) :
  str_all py_isspace s = true -> str_lstrip s = "".
Proof.
  induction s as [|a r IH]; simpl; [reflexivity|].
  destruct (py_isspace a); simpl; [exact IH | discriminate].
Qed.

Lemma str_rstrip_blank (s : string) :
  str_rstrip s = "" -> str_all py_isspace s = true.
Proof.
  induction s as [|a r IH]; simpl; [reflexivity|].
  destruct (str_rstrip r) eqn:E; [|discriminate].
  destruct (py_isspace a); [intros _; apply IH; reflexivity | discriminate].
Qed.

Lemma str_lstrip_suffix (s : string) :
  str_all py_isspace (str_lstrip s) = true -> str_all py_isspace s = true.
Proof.
  induction s as [|a r IH]; simpl; [reflexivity|].
  destruct (py_isspace a) eqn:E; simpl; [exact IH|].
  rewrite E. simpl. congruence.
Qed.

(** [s.strip()] is empty exactly for a string of whitespace. *)
Lemma str_strip_blank (s : string) :
  str_strip s = "" <-> str_all py_isspace s = true.
Proof.
  unfold str_strip. split.
  - intros H. apply str_lstrip_suffix. apply str_rstrip_blank. exact H.
  - intros H. rewrite (str_lstrip_blank s H). reflexivity.
Qed.

(** ** The converter on the store *)

Lemma read_only_ret {A : Type} (a : A) : read_only (st_ret a).
Proof. intros st. reflexivity. Qed.

Lemma read_only_raise {A : Type} (e : PyError) : read_only (@st_raise A e).
Proof. intros st. reflexivity. Qed.

Lemma read_only_lift {A : Type} (r : Exc A) : read_only (st_lift r).
Proof. intros st. reflexivity. Qed.

Lemma read_only_read {A : Type} (field : ElementObj -> A) (l : loc) :
  read_only (st_read field l).
Proof. intros st. unfold st_read. destruct (st !! l); reflexivity. Qed.

Lemma read_only_bind {A B : Type} (m : M A) (k : A -> M B) :
  read_only m -> (forall a, read_only (k a)) -> read_only (st_bind m k).
Proof.
  intros Hm Hk st. unfold st_bind. specialize (Hm st).
  destruct (m st) as [[a|e] st']; simpl in *; subst; [apply Hk | reflexivity].
Qed.

Lemma read_only_for_each {A S : Type} (body : A -> S -> M S) (l : list A) (s : S) :
  (forall x s', read_only (body x s')) -> read_only (for_each_m body l s).
Proof.
  intros Hb. revert s. induction l as [|x l IH]; intros s; simpl.
  - apply read_only_ret.
  - apply read_only_bind; [apply Hb | exact IH].
Qed.

Create HintDb read_only.
#[local] Hint Resolve read_only_ret read_only_raise read_only_lift
  read_only_read : read_only.

Ltac read_only_steps :=
  repeat (first
    [ apply read_only_bind; [|intros ?]
    | apply read_only_for_each; intros ? ?
    | solve [auto with read_only] ]).

Lemma xml_to_dict_at_read_only (depth : nat) (element : loc) (sn pm en : bool) :
  read_only (xml_to_dict_at depth element sn pm en).
Proof.
  revert element. induction depth as [|depth IH]; intros element; simpl.
  - apply read_only_raise.
  - read_only_steps; apply IH.
Qed.

Lemma height_child (c : Element) (kids : list Element) :
  In c kids -> height c <= fold_right (fun c h => Nat.max (height c) h) 0 kids.
Proof.
  induction kids as [|c' kids IH]; simpl; [tauto|].
  intros [->|H]; [lia | specialize (IH H); lia].
Qed.

Lemma represents_inv (st : gmap loc ElementObj) (l : loc) (e : Element) :
  represents st l e ->
  exists o,
    st !! l = Some o
    /\ tag e = obj_tag o /\ attrib e = obj_attrib o /\ text e = obj_text o
    /\ Forall2 (represents st) (obj_children o) (child_elements e).
Proof.
  intros H. inversion H as [l' o kids Ho Hk]; subst. exists o. simpl. auto.
Qed.

(** On a store that holds a tree, with frames enough for its nesting
    depth, the converter on the store returns what the converter on the
    tree returns, and leaves the store. *)
Lemma xml_to_dict_at_tree (st : gmap loc ElementObj) (e : Element) :
  forall (l : loc) (depth : nat) (sn pm en : bool),
    represents st l e ->
    height e <= depth ->
    xml_to_dict_at depth l sn pm en st = (xml_to_dict e sn pm en, st).
Proof.
  induction e as [t a x kids IH] using Element_nested_ind.
  intros l depth sn pm en R Hd.
  destruct (represents_inv _ _ _ R) as (o & Ho & Et & Ea & Ex & Rk).
  simpl in Et, Ea, Ex, Rk. subst t a x.
  destruct depth as [|depth]; [simpl in Hd; lia|].
  assert (Hk : forall c, In c kids -> height c <= depth).
  { intros c Hc. apply height_child in Hc. simpl in Hd. lia. }
  clear Hd R.
  cbn [xml_to_dict_at xml_to_dict].
  unfold st_bind at 1. unfold st_read at 1. rewrite Ho. unfold st_bind at 1.
  unfold st_lift at 1.
  destruct (add_attributes sn (obj_attrib o) []) as [result|err]; [|reflexivity].
  cbn [exc_bind].
  unfold st_bind at 1. unfold st_read at 1. rewrite Ho. unfold st_bind at 1.
  unfold st_lift at 1.
  destruct (get_text_content (obj_text o)) as [tc|err]; [|reflexivity].
  cbn [exc_bind].
  unfold st_bind at 1. unfold st_read at 1. rewrite Ho. unfold st_bind at 1.
  match goal with
  | |- context [for_each_m ?bm (obj_children o) [] st] =>
      match goal with
      | |- context [for_each ?bp kids []] =>
          assert (L : forall acc,
                     for_each_m bm (obj_children o) acc st
                     = (for_each bp kids acc, st))
      end
  end.
  { clear Ho. revert Hk IH.
    induction Rk as [|lc c locs kids Rc Rk IHk]; intros Hk IH acc.
    - reflexivity.
    - apply Forall_cons_iff in IH. destruct IH as [IHc IHr].
      cbn [for_each_m for_each].
      destruct (represents_inv _ _ _ Rc) as (oc & Hoc & Etc & _).
      unfold st_bind at 1. unfold st_bind at 1. unfold st_read at 1.
      rewrite Hoc. unfold st_bind at 1. unfold st_lift at 1. rewrite <- Etc.
      destruct (clean_tag sn (tag c)) as [child_tag|err]; [|reflexivity].
      cbn [exc_bind]. unfold st_bind at 1.
      rewrite (IHc lc depth sn pm en Rc (Hk c (or_introl eq_refl))).
      destruct (xml_to_dict c sn pm en) as [child_data|err]; [|reflexivity].
      cbn [exc_bind]. unfold st_lift at 1.
      destruct (add_child acc child_tag child_data) as [acc'|err]; [|reflexivity].
      cbn [exc_bind]. apply IHk; [|exact IHr].
      intros c' Hc'. apply Hk. right. exact Hc'. }
  rewrite L.
  match goal with
  | |- context [for_each ?bp kids []] => destruct (for_each bp kids [])
  end; reflexivity.
Qed.
(** ** The scenarios, run *)

Example scenario_A :
  xml_to_dict Scenarios.a_empty false true false = Ok (JDict [])
  /\ xml_to_dict Scenarios.a_empty false true true = Ok JNone.
Proof. split; reflexivity. Qed.

Example scenario_B :
  xml_to_dict Scenarios.a_hi false true false = Ok (JStr "hi").
Proof. reflexivity. Qed.

Example scenario_C :
  xml_to_dict Scenarios.a_bb false true false
  = Ok (JDict [("@id", JStr "1"); ("b", JList [JStr "x"; JStr "y"])]).
Proof. reflexivity. Qed.

Example scenario_D :
  xml_to_dict Scenarios.a_mixed false true false
  = Ok (JDict [("b", JDict []); ("#text", JStr "text")])
  /\ xml_to_dict Scenarios.a_mixed false false false
     = Ok (JDict [("b", JDict [])]).
Proof. split; reflexivity. Qed.

Example scenario_E :
  (do t <- preprocess_xml_tree (mkElementTree Scenarios.a_ns) true ;;
   xml_to_dict (getroot t) true true false)
  = Ok (JDict [("@id", JStr "7"); ("#text", JStr "v")]).
Proof. reflexivity. Qed.

(** The pieces of Python the model rests on, on small inputs. *)
Example str_strip_example :
  str_strip Scenarios.padded = "hi there"
  /\ str_strip Scenarios.blank = ""
  /\ str_strip "a  b" = "a  b".
Proof. repeat split; reflexivity. Qed.

Example str_split1_example :
  str_split1 "}" "{u}a" = ["{u"; "a"]
  /\ str_split1 "}" "{x}y}a" = ["{x"; "y}a"]
  /\ str_split1 "}" "plain" = ["plain"].
Proof. repeat split; reflexivity. Qed.

Example dict_setitem_example :
  dict_setitem "a" 3 [("a", 1); ("b", 2)] = [("a", 3); ("b", 2)]
  /\ dict_setitem "c" 3 [("a", 1); ("b", 2)] = [("a", 1); ("b", 2); ("c", 3)]
  /\ dict_update [("a", 1); ("b", 2)] [("b", 5); ("c", 6)]
     = [("a", 1); ("b", 5); ("c", 6)].
Proof. repeat split; reflexivity. Qed.

(** The normaliser on the store assigns in place, and what it leaves is
    the tree the normaliser on trees computes; the attribute [k] that two
    names collapse to keeps its first place and its last value. *)
Example preprocess_in_place :
  preprocess_xml_tree_at 2 0 true Scenarios.ns_nested_store
  = (Ok tt,
     <[0 := mkElementObj "r" [("k", "1")] None [1; 2]]>
       (<[1 := mkElementObj "a" [] None []]>
          (<[2 := mkElementObj "b" [("k", "3")] None []]> ∅)))
  /\ preprocess_xml_tree
       (mkElementTree
          (mkElement "r" [("{u}k", "1")] None
             [mkElement "{u}a" [] None [];
              mkElement "b" [("{u}k", "2"); ("k", "3")] None []])) true
     = Ok (mkElementTree
             (mkElement "r" [("k", "1")] None
                [mkElement "a" [] None [];
                 mkElement "b" [("k", "3")] None []])).
Proof. split; vm_compute; reflexivity. Qed.

(** ** Leaves: scalar collapse and empty elements *)

(** C2. An element without attributes and without children whose text
    trims to a non-empty string [t] converts to the bare string [t], not
    to a mapping that holds it, whatever the three options are. *)
Theorem scalar_collapse (e : Element) (s t : string) (sn pm en : bool) :
  attrib e = [] ->
  child_elements e = [] ->
  text e = Some s ->
  str_strip s = t ->
  t <> "" ->
  xml_to_dict e sn pm en = Ok (JStr t).
Proof.
  destruct e as [e_tag a x kids]. simpl. intros -> -> -> <- Ht.
  assert (Hs : str_truthy s = true).
  { destruct s; [exfalso; apply Ht; reflexivity | reflexivity]. }
  unfold get_text_content, add_attributes. simpl. rewrite Hs. simpl.
  unfold combine. simpl.
  destruct (str_strip s); [exfalso; apply Ht; reflexivity | reflexivity].
Qed.

Lemma scalar_collapse_witness :
  xml_to_dict (mkElement "a" [] (Some Scenarios.padded) []) true false true = Ok (JStr "hi there").
Proof.
  apply (scalar_collapse (mkElement "a" [] (Some Scenarios.padded) []) Scenarios.padded "hi there" true false true); try reflexivity.
  discriminate.
Defined.

(** C4. An element without attributes and without children whose text is
    absent or all whitespace converts to [None] when
    [empty_elements_as_null] is set and to the empty mapping otherwise:
    whitespace alone is not kept as text. *)
Theorem empty_element_value (e : Element) (sn pm en : bool) :
  attrib e = [] ->
  child_elements e = [] ->
  (text e = None
   \/ exists s, text e = Some s /\ str_all py_isspace s = true) ->
  xml_to_dict e sn pm en = Ok (if en then JNone else JDict []).
Proof.
  destruct e as [e_tag a x kids]. simpl. intros -> -> Hx.
  rewrite get_text_content_ok. simpl.
  assert (E : match x with Some s => str_strip s | None => "" end = "").
  { destruct Hx as [->|(s & -> & Hs)]; [reflexivity|].
    apply str_strip_blank. exact Hs. }
  rewrite E. destruct en; reflexivity.
Qed.

Lemma empty_element_value_witness :
  xml_to_dict (mkElement "a" [] (Some Scenarios.blank) []) false true true = Ok JNone
  /\ xml_to_dict (mkElement "a" [] None []) false true false = Ok (JDict []).
Proof.
  split.
  - apply (empty_element_value (mkElement "a" [] (Some Scenarios.blank) []) false true true); try reflexivity.
    right. eexists. split; reflexivity.
  - apply (empty_element_value (mkElement "a" [] None []) false true false);
      try reflexivity.
    left. reflexivity.
Defined.

(** ** The variants of the output *)

(** C8. Whatever the element and the options, the converter returns a
    value in which every value, at every depth, is a string, [None], a
    mapping or a list: no number and no boolean is produced. *)
Theorem only_str_none_dict_list (e : Element) (sn pm en : bool) :
  exists v,
    xml_to_dict e sn pm en = Ok v /\ no_number_no_boolean v = true.
Proof.
  destruct (xml_to_dict_sound e sn pm en) as (v & E & _ & N).
  exists v. split; assumption.
Qed.

(** Text and attribute values that look like numbers stay strings. *)
Example numeric_text_stays_string :
  xml_to_dict (mkElement "n" [("max", "10"); ("on", "true")] (Some "42") [])
    false true false
  = Ok (JDict [("@max", JStr "10"); ("@on", JStr "true"); ("#text", JStr "42")]).
Proof. reflexivity. Qed.

(** C10. The value [xml_to_dict] returns for an element is never a list:
    it is a string, a mapping or [None], and lists sit only as values of
    mapping entries, where same-tag promotion put them ([shaped]). When
    the body reaches its last line, [result] is not empty, so that the
    alternative written there is never taken and the value returned is
    the mapping [result]. *)
Theorem top_level_never_list (e : Element) (sn pm en : bool) :
  exists f v,
    flow_of e sn pm en = Ok f
    /\ xml_to_dict e sn pm en = Ok v
    /\ v = finish en f
    /\ is_list v = false
    /\ ((exists s, v = JStr s) \/ (exists d, v = JDict d) \/ v = JNone)
    /\ shaped false v = true
    /\ match f with
       | EarlyReturn _ => True
       | FallThrough result => dict_truthy result = true /\ v = JDict result
       end.
Proof.
  destruct (flow_of_sound e sn pm en) as (f & Ef & Hf & [S N]).
  exists f, (finish en f). rewrite xml_to_dict_unfold, Ef. simpl.
  repeat split; try assumption.
  - apply shaped_not_list. exact S.
  - destruct (finish en f); simpl in *; try discriminate; eauto.
  - destruct f as [v|result]; [exact I|]. destruct Hf as [T _].
    split; [exact T|]. simpl. unfold final_return. rewrite T. reflexivity.
Qed.

(** ** Totality *)

Lemma mixed_store_represents :
  represents Scenarios.mixed_store 0 Scenarios.a_mixed.
Proof.
  apply (represents_node Scenarios.mixed_store 0
           (mkElementObj "a" [] (Some "text") [1]) [Scenarios.leaf "b" None]).
  - reflexivity.
  - constructor; [|constructor].
    apply (represents_node Scenarios.mixed_store 1
             (mkElementObj "b" [] None []) []).
    + reflexivity.
    + constructor.
Qed.

(** ** Frame and determinism *)

(** C9. [xml_to_dict] never mutates the tree it reads: whatever the
    store, the element, the options and the outcome, the store after the
    call is the store before it, so that names, attributes, text and
    children of every element are unchanged. The normaliser does assign
    names in place. *)
Theorem converter_never_mutates :
  (forall depth element sn pm en st,
      snd (xml_to_dict_at depth element sn pm en st) = st)
  /\ snd (preprocess_xml_tree_at 1 0 true Scenarios.ns_store)
     = <[0 := mkElementObj "a" [] None []]> ∅
  /\ snd (preprocess_xml_tree_at 1 0 true Scenarios.ns_store)
     <> Scenarios.ns_store.
Proof.
  split; [|split].
  - intros depth element sn pm en st.
    apply (xml_to_dict_at_read_only depth element sn pm en st).
  - vm_compute. reflexivity.
  - intros H.
    assert (E : snd (preprocess_xml_tree_at 1 0 true Scenarios.ns_store) !! 0
                = Scenarios.ns_store !! 0) by (rewrite H; reflexivity).
    vm_compute in E. discriminate E.
Qed.

Lemma convert_children_ext (kids1 kids2 : list Element) (sn pm en : bool) :
  Forall2 (fun c1 c2 =>
             clean_tag sn (tag c1) = clean_tag sn (tag c2)
             /\ xml_to_dict c1 sn pm en = xml_to_dict c2 sn pm en)
    kids1 kids2 ->
  convert_children kids1 sn pm en = convert_children kids2 sn pm en.
Proof.
  unfold convert_children. generalize (@nil (string * JsonValue)).
  intros acc H. revert acc.
  induction H as [|c1 c2 kids1 kids2 [Et Ev] _ IH]; intros acc; simpl.
  - reflexivity.
  - rewrite Et, Ev. destruct (clean_tag sn (tag c2)); simpl; [|reflexivity].
    destruct (xml_to_dict c2 sn pm en); simpl; [|reflexivity].
    destruct (add_child acc a a0); simpl; [apply IH | reflexivity].
Qed.

(** C7, as the code has it. The converter is deterministic. Run twice in a row on the same
    element with the same options, the second run on the store the first
    one left, it gives the same outcome both times. And its result is a
    function of the attributes of the element, of its trimmed text and of
    what its children convert to, each under its key: two elements that
    agree on these convert to the same value. *)
Theorem converter_deterministic :
  (forall depth element sn pm en st,
      fst (xml_to_dict_at depth element sn pm en
             (snd (xml_to_dict_at depth element sn pm en st)))
      = fst (xml_to_dict_at depth element sn pm en st))
  /\ (forall e1 e2 sn pm en,
         attrib e1 = attrib e2 ->
         get_text_content (text e1) = get_text_content (text e2) ->
         Forall2 (fun c1 c2 =>
                    clean_tag sn (tag c1) = clean_tag sn (tag c2)
                    /\ xml_to_dict c1 sn pm en = xml_to_dict c2 sn pm en)
           (child_elements e1) (child_elements e2) ->
         xml_to_dict e1 sn pm en = xml_to_dict e2 sn pm en).
Proof.
  split.
  - intros depth element sn pm en st.
    rewrite (xml_to_dict_at_read_only depth element sn pm en st). reflexivity.
  - intros e1 e2 sn pm en Ea Et Ek.
    rewrite !xml_to_dict_unfold. unfold flow_of.
    rewrite Ea, Et, (convert_children_ext _ _ sn pm en Ek). reflexivity.
Qed.

Lemma converter_deterministic_witness :
  xml_to_dict
    (mkElement "a" [("k", "v")] (Some Scenarios.padded)
       [Scenarios.leaf "b" (Some "x")]) false true false
  = xml_to_dict
      (mkElement "z" [("k", "v")] (Some "hi there")
         [Scenarios.leaf "b" (Some " x ")]) false true false.
Proof.
  destruct converter_deterministic as [_ H].
  apply H.
  - reflexivity.
  - reflexivity.
  - constructor; [split; reflexivity | constructor].
Defined.

(** ** The normaliser applied twice *)

Lemma local_name_no_brace (s : string) :
  at_most_one_brace s = true -> no_brace (local_name s) = true.
Proof.
  unfold at_most_one_brace, no_brace, local_name. intros H.
  apply Nat.leb_le in H.
  destruct (str_contains "}" s) eqn:E; [|rewrite E; reflexivity].
  rewrite str_contains_count, str_count_after.
  destruct (str_count "}" s) as [|[|n]]; simpl; [reflexivity | reflexivity | lia].
Qed.

Lemma local_name_fixed (s : string) : no_brace s = true -> local_name s = s.
Proof.
  unfold no_brace, local_name. destruct (str_contains "}" s); [discriminate | reflexivity].
Qed.

Lemma normalized_attrib_names (a : Dict string) :
  forallb (fun kv => at_most_one_brace (fst kv)) a = true ->
  forallb (fun kv => no_brace (fst kv)) (normalized_attrib a) = true.
Proof.
  intros H. apply forallb_forall. apply Forall_forall.
  unfold normalized_attrib.
  assert (G : forall acc : Dict string,
             Forall (fun kv => no_brace (fst kv) = true) acc ->
             Forall (fun kv => no_brace (fst kv) = true)
               (fold_left (fun acc kv =>
                             dict_setitem (local_name (fst kv)) (snd kv) acc) a acc)).
  { induction a as [|[k v] a IH]; intros acc Hacc; simpl; [exact Hacc|].
    simpl in H. apply andb_prop in H. destruct H as [Hk Ha].
    apply IH; [exact Ha|].
    apply Forall_dict_setitem; [exact Hacc|]. simpl.
    apply local_name_no_brace. exact Hk. }
  apply G. constructor.
Qed.

Lemma normalized_attrib_fixed (a : Dict string) :
  NoDup (dict_keys a) ->
  forallb (fun kv => no_brace (fst kv)) a = true ->
  normalized_attrib a = a.
Proof.
  unfold normalized_attrib.
  change a with ([] ++ a) at 1 4. generalize (@nil (string * string)) as acc.
  induction a as [|[k v] a IH]; intros acc ND H; simpl.
  - rewrite app_nil_r. reflexivity.
  - simpl in H. apply andb_prop in H. destruct H as [Hk Ha].
    rewrite (local_name_fixed k Hk).
    assert (Hnew : ~ In k (dict_keys acc)).
    { unfold dict_keys in ND. rewrite map_app in ND. simpl in ND.
      apply NoDup_remove in ND. destruct ND as [_ Hno].
      intros I. apply Hno. apply in_or_app. left. exact I. }
    rewrite (dict_setitem_new k v acc Hnew).
    replace (acc ++ (k, v) :: a) with ((acc ++ [(k, v)]) ++ a)
      by (rewrite <- app_assoc; reflexivity).
    apply IH; [|exact Ha].
    rewrite <- app_assoc. exact ND.
Qed.

Lemma normalized_names (e : Element) :
  all_names at_most_one_brace e = true ->
  all_names no_brace (normalized e) = true.
Proof.
  induction e as [t a x kids IH] using Element_nested_ind. simpl. intros H.
  apply andb_prop in H. destruct H as [H Hk].
  apply andb_prop in H. destruct H as [Ht Ha].
  rewrite (local_name_no_brace t Ht), (normalized_attrib_names a Ha). simpl.
  induction IH as [|c kids Hc _ IHk]; simpl in *; [reflexivity|].
  apply andb_prop in Hk. destruct Hk as [H1 H2].
  rewrite (Hc H1), (IHk H2). reflexivity.
Qed.

Lemma normalized_dicts (e : Element) : attribs_are_dicts (normalized e).
Proof.
  induction e as [t a x kids IH] using Element_nested_ind. simpl.
  split; [apply normalized_attrib_NoDup|].
  induction IH as [|c kids Hc _ IHk]; simpl; [exact I | split; assumption].
Qed.

(** A tree of plain names is left as it is. *)
Lemma normalized_fixed (e : Element) :
  all_names no_brace e = true -> attribs_are_dicts e -> normalized e = e.
Proof.
  induction e as [t a x kids IH] using Element_nested_ind. simpl.
  intros H [ND Dk].
  apply andb_prop in H. destruct H as [H Hk].
  apply andb_prop in H. destruct H as [Ht Ha].
  rewrite (local_name_fixed t Ht), (normalized_attrib_fixed a ND Ha).
  f_equal.
  induction IH as [|c kids Hc _ IHk]; simpl in *; [reflexivity|].
  apply andb_prop in Hk. destruct Hk as [H1 H2]. destruct Dk as [D1 D2].
  rewrite (Hc H1 D1), (IHk H2 D2). reflexivity.
Qed.

(** The normaliser is idempotent on every tree, built by hand or parsed,
    in which no element name and no attribute name holds more than one
    closing brace, which is every tree of names [{uri}local] whose URI has
    no brace in it, and on every tree when [strip_namespaces] is off: two
    passes then leave the very tree that one pass leaves. *)
Theorem normalizer_idempotent_single_brace (tree : ElementTree) (sn : bool) :
  sn = false \/ all_names at_most_one_brace (getroot tree) = true ->
  idempotent_on tree sn.
Proof.
  intros H. unfold idempotent_on. rewrite preprocess_xml_tree_ok.
  eexists. split; [reflexivity|]. rewrite preprocess_xml_tree_ok.
  destruct sn; [|reflexivity].
  destruct H as [H|H]; [discriminate|]. simpl. f_equal. f_equal.
  apply normalized_fixed; [apply normalized_names; exact H | apply normalized_dicts].
Qed.

Lemma normalizer_idempotent_single_brace_witness :
  idempotent_on (mkElementTree Scenarios.a_ns) true.
Proof.
  apply (normalizer_idempotent_single_brace (mkElementTree Scenarios.a_ns) true).
  right. reflexivity.
Defined.

(** A name with two closing braces, which no parsed tree has and an
    element built by hand can have, loses one part at each pass: the
    second pass changes what the first one left. *)
Lemma normalizer_not_idempotent :
  preprocess_xml_tree (mkElementTree (mkElement "{x}y}a" [] None [])) true
  = Ok (mkElementTree (mkElement "y}a" [] None []))
  /\ preprocess_xml_tree (mkElementTree (mkElement "y}a" [] None [])) true
     = Ok (mkElementTree (mkElement "a" [] None []))
  /\ ~ idempotent_on (mkElementTree (mkElement "{x}y}a" [] None [])) true.
Proof.
  split; [reflexivity|]. split; [reflexivity|].
  intros (once & E1 & E2). vm_compute in E1. injection E1 as <-.
  vm_compute in E2. discriminate E2.
Qed.

(** ** Same-tag promotion and mixed content *)

Lemma has_tag_key (sn : bool) (T : string) (c : Element) :
  has_tag sn T c = String.eqb (key_of sn (tag c)) T.
Proof. unfold has_tag. rewrite clean_tag_ok. reflexivity. Qed.

(** The values of the children filed under [T], read off the children. *)
Lemma map_exc_tagged (kids : list Element) (sn pm en : bool) (T : string) :
  map_exc (fun c => xml_to_dict c sn pm en) (List.filter (has_tag sn T) kids)
  = Ok (values_under T (filed sn pm en kids)).
Proof.
  unfold values_under, filed. induction kids as [|c kids IH]; simpl; [reflexivity|].
  rewrite has_tag_key. destruct (String.eqb (key_of sn (tag c)) T); simpl.
  - rewrite xml_to_dict_value_of. simpl. rewrite IH. reflexivity.
  - exact IH.
Qed.

Lemma filed_not_list (kids : list Element) (sn pm en : bool) :
  Forall (fun p => is_list (snd p) = false) (filed sn pm en kids).
Proof.
  unfold filed. apply Forall_map. apply Forall_forall. intros c _. simpl.
  unfold value_of. destruct (xml_to_dict_sound c sn pm en) as (v & -> & S & _).
  apply shaped_not_list. exact S.
Qed.

Lemma attr_entries_no_text (r : XmlDict) :
  Forall attr_entry r -> dict_get "#text" r = None.
Proof.
  intros H. induction H as [|kv r (k & s & ->) _ IH]; simpl; [reflexivity | exact IH].
Qed.

(** The value returned for an element with children: the mapping of
    attributes and children, with the text added when there is text and
    [preserve_mixed_content] is set. *)
Lemma xml_to_dict_with_children (e : Element) (sn pm en : bool) (t : string) :
  child_elements e <> [] ->
  get_text_content (text e) = Ok t ->
  exists r,
    add_attributes sn (attrib e) [] = Ok r
    /\ Forall attr_entry r
    /\ let children := fold_left file_child (filed sn pm en (child_elements e)) [] in
       let m := dict_update r children in
       attributes_and_children e sn pm en = Ok m
       /\ xml_to_dict e sn pm en
          = Ok (JDict (if str_truthy t && pm
                       then dict_setitem "#text" (JStr t) m else m)).
Proof.
  intros Hk Ht. destruct (add_attributes_ok sn (attrib e)) as (r & Er & Fr & _).
  exists r. split; [exact Er|]. split; [exact Fr|]. simpl.
  assert (Hc : convert_children (child_elements e) sn pm en
               = Ok (fold_left file_child (filed sn pm en (child_elements e)) [])).
  { apply convert_children_fold. apply Forall_forall. intros c _.
    eexists. apply xml_to_dict_value_of. }
  assert (Tc : dict_truthy
                 (fold_left file_child (filed sn pm en (child_elements e)) []) = true).
  { rewrite filed_truthy. unfold filed.
    destruct (child_elements e); [contradiction | reflexivity]. }
  split.
  - unfold attributes_and_children. rewrite Er, Hc. reflexivity.
  - rewrite xml_to_dict_unfold. unfold flow_of. rewrite Er, Ht, Hc. simpl.
    unfold combine. rewrite Tc.
    assert (Tu := dict_update_truthy r _ Tc).
    destruct (str_truthy t && pm); simpl; unfold final_return;
      rewrite ?dict_setitem_truthy, ?Tu; reflexivity.
Qed.

(** Same-tag promotion on every element, built by hand or parsed. For
    an element and a key [T] under which at
    least one of its children is filed, and unless [T] is the reserved key
    ["#text"] while the element has text that is kept: the value returned
    is a mapping that holds, at [T], the value of the child itself when
    there is one such child, never a list, and when there are [n >= 2] the
    list of their [n] values in document order, adjacent or not. The key
    of a child is its tag as [clean_tag] gives it. *)
Theorem same_tag_promotion (e : Element) (sn pm en : bool) (T t : string) :
  children_tagged sn T e <> [] ->
  get_text_content (text e) = Ok t ->
  T <> "#text" \/ t = "" \/ pm = false ->
  promotes_same_tag e sn pm en T.
Proof.
  intros Hn Ht Hres. unfold promotes_same_tag, children_tagged in *.
  set (kids := child_elements e) in *.
  assert (Hk : kids <> []) by (intros E; rewrite E in Hn; apply Hn; reflexivity).
  destruct (xml_to_dict_with_children e sn pm en t Hk Ht) as (r & _ & Fr & _ & Ev).
  fold kids in Ev.
  assert (Hvs := map_exc_tagged kids sn pm en T).
  assert (Hlen := map_exc_length _ _ _ Hvs).
  destruct (filed_grouped (filed sn pm en kids) (filed_not_list kids sn pm en))
    as [ND G].
  eexists _, _. split; [exact Hvs|]. split; [exact Hlen|]. split; [exact Ev|].
  split; [|apply values_under_not_list; apply filed_not_list].
  assert (Hm : dict_get T (dict_update r (fold_left file_child (filed sn pm en kids) []))
               = grouped (values_under T (filed sn pm en kids))).
  { rewrite (dict_get_update _ _ _ ND), G.
    destruct (values_under T (filed sn pm en kids)) as [|v [|v' vs]] eqn:E;
      try reflexivity.
    exfalso. apply Hn. simpl in Hlen.
    destruct (List.filter (has_tag sn T) kids); [reflexivity | discriminate]. }
  destruct (str_truthy t && pm) eqn:B; [|exact Hm].
  apply andb_prop in B. destruct B as [Bt Bp].
  destruct Hres as [N|[->| ->]]; [|discriminate..].
  rewrite dict_get_setitem_ne; [exact Hm | congruence].
Qed.

Lemma same_tag_promotion_witness :
  promotes_same_tag
    (mkElement "a" [] (Some "text")
       [Scenarios.leaf "b" (Some "x"); Scenarios.leaf "c" None;
        Scenarios.leaf "b" (Some "y")]) false true false "b".
Proof.
  apply (same_tag_promotion
           (mkElement "a" [] (Some "text")
              [Scenarios.leaf "b" (Some "x"); Scenarios.leaf "c" None;
               Scenarios.leaf "b" (Some "y")]) false true false "b" "text").
  - discriminate.
  - reflexivity.
  - left. discriminate.
Defined.

(** On an element built by hand: with the text kept, a child of tag
    [#text], a name no parsed tree has, does not hold its key:
    the text of the element is written over it on line 76. *)
Lemma reserved_tag_not_promoted :
  children_tagged false "#text" (Scenarios.a_reserved "x")
  = [Scenarios.leaf "#text" (Some "x")]
  /\ xml_to_dict (Scenarios.leaf "#text" (Some "x")) false true false
     = Ok (JStr "x")
  /\ xml_to_dict (Scenarios.a_reserved "x") false true false
     = Ok (JDict [("#text", JStr "hi")])
  /\ ~ promotes_same_tag (Scenarios.a_reserved "x") false true false "#text".
Proof.
  split; [reflexivity|]. split; [reflexivity|]. split; [reflexivity|].
  intros (vs & d & Hvs & _ & Hd & Hget & _).
  vm_compute in Hvs. injection Hvs as <-.
  vm_compute in Hd. injection Hd as <-.
  vm_compute in Hget. discriminate Hget.
Qed.

(** Mixed content on every element, built by hand or parsed. For an
    element with at least one child, with
    trimmed text [t] that is not empty, and with no child filed under
    ["#text"]: the value returned is the mapping of its attributes and
    children, with [t] added under ["#text"] when
    [preserve_mixed_content] is set and left out otherwise, so that the
    mapping holds [t] at ["#text"] exactly when the option is set. *)
Theorem mixed_content_text (e : Element) (sn pm en : bool) (t : string) :
  child_elements e <> [] ->
  get_text_content (text e) = Ok t ->
  t <> "" ->
  children_tagged sn "#text" e = [] ->
  keeps_mixed_text e sn pm en t.
Proof.
  intros Hk Ht Hne Hno. unfold keeps_mixed_text.
  destruct (xml_to_dict_with_children e sn pm en t Hk Ht) as (r & _ & Fr & Em & Ev).
  apply str_truthy_true in Hne. rewrite Hne in Ev. simpl in Ev.
  eexists _, _. split; [exact Em|]. split; [exact Ev|]. split; [|reflexivity].
  destruct pm.
  - rewrite dict_get_setitem_eq. split; reflexivity.
  - split; [|discriminate]. intros H. exfalso.
    destruct (filed_grouped (filed sn false en (child_elements e))
                (filed_not_list _ sn false en)) as [ND G].
    rewrite (dict_get_update _ _ _ ND), G in H.
    assert (Hvs := map_exc_tagged (child_elements e) sn false en "#text").
    unfold children_tagged in Hno. rewrite Hno in Hvs. simpl in Hvs.
    injection Hvs as Hvs. rewrite <- Hvs in H. simpl in H.
    rewrite (attr_entries_no_text r Fr) in H. discriminate H.
Qed.

Lemma mixed_content_text_witness :
  keeps_mixed_text Scenarios.a_mixed false true false "text"
  /\ keeps_mixed_text Scenarios.a_mixed false false false "text".
Proof.
  split.
  - apply (mixed_content_text Scenarios.a_mixed false true false "text");
      [discriminate | reflexivity | discriminate | reflexivity].
  - apply (mixed_content_text Scenarios.a_mixed false false false "text");
      [discriminate | reflexivity | discriminate | reflexivity].
Defined.

(** On an element built by hand: with the option off, a child of tag
    [#text], a name no parsed tree has, that converts to the very
    text of its parent leaves that text under ["#text"] all the same. *)
Lemma reserved_tag_keeps_text :
  child_elements (Scenarios.a_reserved "hi") <> []
  /\ get_text_content (text (Scenarios.a_reserved "hi")) = Ok "hi"
  /\ xml_to_dict (Scenarios.a_reserved "hi") false false false
     = Ok (JDict [("#text", JStr "hi")])
  /\ ~ keeps_mixed_text (Scenarios.a_reserved "hi") false false false "hi".
Proof.
  split; [discriminate|]. split; [reflexivity|]. split; [reflexivity|].
  intros (m & d & _ & Hd & [Hiff _] & _).
  vm_compute in Hd. injection Hd as <-.
  assert (F : false = true) by (apply Hiff; reflexivity).
  discriminate F.
Qed.

(** * Further properties of the code *)

(** ** Names *)

Lemma str_after_app (c : ascii) (s1 s2 : string) :
  str_contains c s1 = false ->
  str_after c (s1 ++ String c s2) = s2
  /\ str_contains c (s1 ++ String c s2) = true.
Proof.
  induction s1 as [|a r IH]; simpl; intros H.
  - rewrite Ascii.eqb_refl. split; reflexivity.
  - destruct (Ascii.eqb a c); [discriminate | apply IH; exact H].
Qed.

(** X1. A name in the parser's form [{uri}local], with no closing brace
    in the URI, is cut down to [local] by [clean_tag] with
    [strip_namespaces] set and by the normaliser, for tags and for
    attribute names alike; a name without a closing brace is left as it
    is, and so is every name by [clean_tag] with the option off. *)
Theorem universal_name_local_part (uri local name : string) :
  str_contains "}" uri = false ->
  str_contains "}" name = false ->
  let qualified := ("{" ++ uri ++ "}" ++ local)%string in
  clean_tag true qualified = Ok local
  /\ preprocess_tag qualified = Ok local
  /\ preprocess_key qualified = Ok local
  /\ clean_tag true name = Ok name
  /\ preprocess_tag name = Ok name
  /\ preprocess_key name = Ok name
  /\ clean_tag false qualified = Ok qualified.
Proof.
  intros Hu Hn qualified.
  assert (Hq : str_contains "}" qualified = true
               /\ str_after "}" qualified = local).
  { unfold qualified. simpl.
    destruct (str_after_app "}" uri local Hu) as [Ha Hc]. split; assumption. }
  destruct Hq as [Hc Ha].
  rewrite ?clean_tag_ok, ?preprocess_tag_ok, ?preprocess_key_ok.
  cbn [andb]. rewrite Hc, Ha, Hn. repeat split; reflexivity.
Qed.

Lemma universal_name_local_part_witness :
  clean_tag true "{http://www.w3.org/1999/xhtml}body" = Ok "body".
Proof.
  apply (universal_name_local_part "http://www.w3.org/1999/xhtml" "body" "p");
    reflexivity.
Defined.

(** ** Attributes *)

Lemma attributes_loop_fold (sn : bool) (a : Dict string) (r0 : XmlDict) :
  for_each (fun kv result =>
    do clean_key <- clean_tag sn (fst kv) ;;
    Ok (dict_setitem ("@" ++ clean_key)%string (JStr (snd kv)) result)) a r0
  = Ok (fold_left (fun r kv =>
                     dict_setitem ("@" ++ key_of sn (fst kv))%string
                       (JStr (snd kv)) r) a r0).
Proof.
  revert r0. induction a as [|[k s] a IH]; intros r0; simpl; [reflexivity|].
  rewrite clean_tag_ok. simpl. apply IH.
Qed.

Lemma add_attributes_fold (sn : bool) (a : Dict string) :
  add_attributes sn a []
  = Ok (fold_left (fun r kv =>
                     dict_setitem ("@" ++ key_of sn (fst kv))%string
                       (JStr (snd kv)) r) a []).
Proof.
  unfold add_attributes. destruct a as [|kv a]; [reflexivity|].
  cbn [dict_truthy]. apply attributes_loop_fold.
Qed.

Lemma at_prefix_eqb (k k' : string) :
  String.eqb ("@" ++ k) ("@" ++ k') = String.eqb k k'.
Proof. reflexivity. Qed.

Lemma at_prefix_inj (k k' : string) :
  ("@" ++ k)%string = ("@" ++ k')%string -> k = k'.
Proof. intros E. injection E as E. exact E. Qed.

Lemma attribute_entries_keys (sn : bool) (a : Dict string) :
  dict_keys (attribute_entries sn a)
  = map (fun k => ("@" ++ k)%string) (map (key_of sn) (dict_keys a)).
Proof.
  unfold dict_keys, attribute_entries. rewrite !map_map. reflexivity.
Qed.

Lemma NoDup_at_prefix (ks : list string) :
  NoDup ks -> NoDup (map (fun k => ("@" ++ k)%string) ks).
Proof.
  induction 1 as [|k ks Hk _ IH]; simpl; constructor; [|exact IH].
  intros I. apply in_map_iff in I. destruct I as (k' & E & I).
  apply at_prefix_inj in E. subst k'. contradiction.
Qed.

Lemma at_prefix_not_text (ks : list string) :
  ~ In "#text" (map (fun k => ("@" ++ k)%string) ks).
Proof.
  intros I. apply in_map_iff in I. destruct I as (k & E & _). discriminate E.
Qed.

(** When the cleaned names differ, lines 48-51 write one entry per
    attribute, in order. *)
Lemma fold_attributes_append (sn : bool) (a : Dict string) (acc : XmlDict) :
  NoDup (dict_keys acc
         ++ map (fun k => ("@" ++ k)%string) (map (key_of sn) (dict_keys a))) ->
  fold_left (fun r kv =>
               dict_setitem ("@" ++ key_of sn (fst kv))%string (JStr (snd kv)) r)
    a acc
  = acc ++ attribute_entries sn a.
Proof.
  revert acc. induction a as [|[k s] a IH]; intros acc ND; simpl.
  - rewrite app_nil_r. reflexivity.
  - simpl in ND.
    assert (Hnew : ~ In ("@" ++ key_of sn k)%string (dict_keys acc)).
    { apply NoDup_remove in ND. destruct ND as [_ Hno].
      intros I. apply Hno. apply in_or_app. left. exact I. }
    rewrite (dict_setitem_new _ _ acc Hnew).
    rewrite IH.
    + rewrite <- app_assoc. reflexivity.
    + unfold dict_keys in *. rewrite map_app, <- app_assoc. exact ND.
Qed.

(** X2. An element without children, with at least one attribute and with
    attributes whose cleaned names differ, converts to the mapping of its
    attributes, each under its name with [@] in front and in the order of
    the element, followed by its trimmed text under ["#text"] when that
    text is not empty. *)
Theorem attributes_without_children (e : Element) (sn pm en : bool) (t : string) :
  child_elements e = [] ->
  attrib e <> [] ->
  NoDup (map (key_of sn) (dict_keys (attrib e))) ->
  get_text_content (text e) = Ok t ->
  xml_to_dict e sn pm en
  = Ok (JDict (attribute_entries sn (attrib e) ++ text_entry t)).
Proof.
  destruct e as [e_tag a x kids]. simpl. intros -> Ha ND Ht.
  rewrite add_attributes_fold, Ht. simpl.
  rewrite (fold_attributes_append sn a []) by (apply NoDup_at_prefix; exact ND).
  simpl. unfold combine, text_entry. simpl.
  assert (Tr : dict_truthy (attribute_entries sn a) = true).
  { destruct a; [contradiction | reflexivity]. }
  rewrite Tr. destruct (str_truthy t); simpl; unfold final_return.
  - rewrite dict_setitem_truthy.
    rewrite dict_setitem_new; [reflexivity|].
    rewrite attribute_entries_keys. apply at_prefix_not_text.
  - rewrite Tr, app_nil_r. reflexivity.
Qed.

Lemma attributes_without_children_witness :
  xml_to_dict
    (mkElement "{u}a" [("{u}id", "7"); ("lang", "en")] (Some " v ") [])
    true false true
  = Ok (JDict [("@id", JStr "7"); ("@lang", JStr "en"); ("#text", JStr "v")]).
Proof.
  apply (attributes_without_children
           (mkElement "{u}a" [("{u}id", "7"); ("lang", "en")] (Some " v ") [])
           true false true "v").
  - reflexivity.
  - discriminate.
  - repeat constructor; simpl; intuition discriminate.
  - reflexivity.
Defined.

Lemma fold_attributes_get (sn : bool) (a : Dict string) (acc : XmlDict) (K : string) :
  dict_get ("@" ++ K)
    (fold_left (fun r kv =>
                  dict_setitem ("@" ++ key_of sn (fst kv))%string (JStr (snd kv)) r)
       a acc)
  = match last_attribute sn K a with
    | Some v => Some (JStr v)
    | None => dict_get ("@" ++ K) acc
    end.
Proof.
  unfold last_attribute.
  induction a as [|[k s] a IH] using rev_ind; [reflexivity|].
  rewrite fold_left_app, map_app, rev_app_distr. simpl.
  destruct (String.eqb_spec K (key_of sn k)) as [->|N].
  - apply dict_get_setitem_eq.
  - rewrite dict_get_setitem_ne; [exact IH|].
    intros E. apply at_prefix_inj in E. congruence.
Qed.

(** X3. Attributes whose cleaned names collide: the last one wins. For a
    name [K] that some attribute of the element cleans to, and no child
    filed under [@K], the value returned is a mapping that holds, at [@K],
    the value of the last attribute that cleans to [K]. *)
Theorem attribute_last_write_wins (e : Element) (sn pm en : bool) (K v : string) :
  last_attribute sn K (attrib e) = Some v ->
  children_tagged sn ("@" ++ K) e = [] ->
  exists d,
    xml_to_dict e sn pm en = Ok (JDict d)
    /\ dict_get ("@" ++ K) d = Some (JStr v).
Proof.
  intros Hl Hc.
  assert (Hr := fold_attributes_get sn (attrib e) [] K). rewrite Hl in Hr.
  set (r := fold_left (fun r kv =>
                         dict_setitem ("@" ++ key_of sn (fst kv))%string
                           (JStr (snd kv)) r) (attrib e) []) in *.
  assert (Tr : dict_truthy r = true) by (destruct r; [discriminate | reflexivity]).
  assert (Hkids : convert_children (child_elements e) sn pm en
                  = Ok (fold_left file_child (filed sn pm en (child_elements e)) [])).
  { apply convert_children_fold. apply Forall_forall. intros c _.
    eexists. apply xml_to_dict_value_of. }
  set (children := fold_left file_child (filed sn pm en (child_elements e)) []) in *.
  assert (Hch : dict_get ("@" ++ K) children = None).
  { destruct (filed_grouped (filed sn pm en (child_elements e))
                (filed_not_list _ sn pm en)) as [_ G].
    unfold children. rewrite G.
    assert (Hvs := map_exc_tagged (child_elements e) sn pm en ("@" ++ K)).
    unfold children_tagged in Hc. rewrite Hc in Hvs. simpl in Hvs.
    injection Hvs as Hvs. rewrite <- Hvs. reflexivity. }
  assert (ND : NoDup (dict_keys children)).
  { apply (filed_grouped (filed sn pm en (child_elements e))
             (filed_not_list _ sn pm en)). }
  rewrite xml_to_dict_unfold. unfold flow_of.
  rewrite add_attributes_fold, get_text_content_ok, Hkids. fold r. simpl.
  set (tc := match text e with Some s => str_strip s | None => "" end).
  assert (Hu : dict_get ("@" ++ K) (dict_update r children) = Some (JStr v)).
  { rewrite (dict_get_update r children _ ND), Hch. exact Hr. }
  assert (Ht : forall m, dict_get ("@" ++ K) m = Some (JStr v) ->
                 dict_get ("@" ++ K) (dict_setitem "#text" (JStr tc) m)
                 = Some (JStr v)).
  { intros m Hm. rewrite dict_get_setitem_ne; [exact Hm | discriminate]. }
  unfold combine. destruct (dict_truthy children) eqn:Tc.
  - assert (Tu := dict_update_truthy r children Tc).
    destruct (str_truthy tc && pm); simpl; unfold final_return;
      rewrite ?dict_setitem_truthy, ?Tu; eexists; split; try reflexivity; auto.
  - rewrite Tr. destruct (str_truthy tc); simpl; unfold final_return;
      rewrite ?dict_setitem_truthy, ?Tr; eexists; split; try reflexivity; auto.
Qed.

Lemma attribute_last_write_wins_witness :
  exists d,
    xml_to_dict
      (mkElement "a" [("{u}id", "1"); ("lang", "en"); ("{w}id", "2")] None
         [mkElement "b" [] None []]) true true false = Ok (JDict d)
    /\ dict_get "@id" d = Some (JStr "2").
Proof.
  apply (attribute_last_write_wins
           (mkElement "a" [("{u}id", "1"); ("lang", "en"); ("{w}id", "2")] None
              [mkElement "b" [] None []]) true true false "id" "2");
    reflexivity.
Defined.

(** ** Invariants of the output *)

Lemma fold_setitem_keeps_NoDup {A V : Type} (g : A -> string) (h : A -> V)
  (l : list A) (acc : Dict V) :
  NoDup (dict_keys acc) ->
  NoDup (dict_keys (fold_left (fun acc x => dict_setitem (g x) (h x) acc) l acc)).
Proof.
  revert acc. induction l as [|x l IH]; intros acc H; simpl; [exact H|].
  apply IH. apply dict_setitem_NoDup. exact H.
Qed.

Lemma dict_update_NoDup {V : Type} (d o : Dict V) :
  NoDup (dict_keys d) -> NoDup (dict_keys (dict_update d o)).
Proof. apply fold_setitem_keeps_NoDup. Qed.

Lemma filed_NoDup (l : list (string * JsonValue)) (acc : XmlDict) :
  NoDup (dict_keys acc) -> NoDup (dict_keys (fold_left file_child l acc)).
Proof.
  revert acc. induction l as [|p l IH]; intros acc H; simpl; [exact H|].
  apply IH. apply dict_setitem_NoDup. exact H.
Qed.

(** A property of values that lines 48-86 build up holds of every value
    the converter returns. *)
Section OutputInvariant.
Variable en : bool.
Variable Q : JsonValue -> Prop.
Hypothesis Q_str : forall s, Q (JStr s).
Hypothesis Q_empty : Q (if en then JNone else JDict []).
Hypothesis Q_pair :
  forall u v, Q u -> Q v -> is_list u = false -> Q (JList [u; v]).
Hypothesis Q_snoc : forall l v, Q (JList l) -> Q v -> Q (JList (l ++ [v])).
Hypothesis Q_dict :
  forall d, NoDup (dict_keys d) -> d <> [] ->
            Forall (fun kv => Q (snd kv)) d -> Q (JDict d).

Lemma merged_entry_invariant (old : option JsonValue) (v : JsonValue) :
  (forall cur, old = Some cur -> Q cur) -> Q v -> Q (merged_entry old v).
Proof.
  intros Hold Hv. destruct old as [cur|]; simpl; [|exact Hv].
  specialize (Hold cur eq_refl).
  destruct cur; try (apply Q_pair; [assumption | assumption | reflexivity]).
  apply Q_snoc; assumption.
Qed.

Lemma filed_invariant (l : list (string * JsonValue)) (acc : XmlDict) :
  Forall (fun p => Q (snd p)) l ->
  Forall (fun kv => Q (snd kv)) acc ->
  Forall (fun kv => Q (snd kv)) (fold_left file_child l acc).
Proof.
  intros H. revert acc. induction H as [|[k v] l Hv _ IH]; intros acc Hacc; simpl.
  - exact Hacc.
  - apply IH. unfold file_child. simpl.
    apply Forall_dict_setitem; [exact Hacc|]. simpl.
    apply merged_entry_invariant; [|exact Hv].
    intros cur Hc.
    destruct (dict_get_Forall _ _ _ _ Hacc Hc) as [k' Hk']. exact Hk'.
Qed.

Lemma attributes_invariant (sn : bool) (a : Dict string) :
  Forall (fun kv => Q (snd kv))
    (fold_left (fun r kv =>
                  dict_setitem ("@" ++ key_of sn (fst kv))%string (JStr (snd kv)) r)
       a []).
Proof.
  generalize (@Forall_nil _ (fun kv : string * JsonValue => Q (snd kv))).
  generalize (@nil (string * JsonValue)).
  induction a as [|[k s] a IH]; intros acc Hacc; simpl; [exact Hacc|].
  apply IH. apply Forall_dict_setitem; [exact Hacc | apply Q_str].
Qed.

Lemma xml_to_dict_invariant (e : Element) (sn pm : bool) :
  exists v, xml_to_dict e sn pm en = Ok v /\ Q v.
Proof.
  revert sn pm. induction e as [t a x kids IH] using Element_nested_ind.
  intros sn pm.
  assert (Hkids : Forall (fun c => exists v, xml_to_dict c sn pm en = Ok v) kids).
  { eapply Forall_impl; [|exact IH]. simpl. intros c Hc.
    destruct (Hc sn pm) as (v & E & _). exists v. exact E. }
  assert (Hvals : Forall (fun p => Q (snd p)) (filed sn pm en kids)).
  { unfold filed. apply Forall_map. eapply Forall_impl; [|exact IH]. simpl.
    intros c Hc. destruct (Hc sn pm) as (v & E & Hv).
    unfold value_of. rewrite E. exact Hv. }
  rewrite xml_to_dict_unfold. unfold flow_of, convert_children. simpl.
  rewrite add_attributes_fold, get_text_content_ok. simpl.
  rewrite (convert_children_fold kids sn pm en [] Hkids). simpl.
  eexists. split; [reflexivity|].
  match goal with
  | |- context [fold_left ?f a []] => set (r := fold_left f a [])
  end.
  assert (Qr : Forall (fun kv => Q (snd kv)) r) by apply attributes_invariant.
  assert (Nr : NoDup (dict_keys r)).
  { apply fold_setitem_keeps_NoDup. apply NoDup_nil. }
  assert (Qc := filed_invariant _ [] Hvals (Forall_nil _)).
  set (children := fold_left file_child (filed sn pm en kids) []) in *.
  set (tc := match x with Some s => str_strip s | None => "" end).
  assert (Hd : forall d, NoDup (dict_keys d) -> dict_truthy d = true ->
                 Forall (fun kv => Q (snd kv)) d -> Q (final_return en d)).
  { intros d Nd Td Qd. unfold final_return. rewrite Td.
    apply Q_dict; [exact Nd | | exact Qd]. intros ->. discriminate Td. }
  unfold combine. destruct (dict_truthy children) eqn:Tc.
  - assert (Qu := Forall_dict_update _ r children Qr Qc).
    assert (Tu := dict_update_truthy r children Tc).
    assert (Nu := dict_update_NoDup r children Nr).
    destruct (str_truthy tc && pm); simpl; apply Hd; auto.
    + apply dict_setitem_NoDup. exact Nu.
    + apply dict_setitem_truthy.
    + apply Forall_dict_setitem; [exact Qu | apply Q_str].
  - destruct (str_truthy tc); simpl.
    + destruct (dict_truthy r) eqn:Tr; simpl; [|apply Q_str].
      apply Hd.
      * apply dict_setitem_NoDup. exact Nr.
      * apply dict_setitem_truthy.
      * apply Forall_dict_setitem; [exact Qr | apply Q_str].
    + destruct (dict_truthy r) eqn:Tr; simpl; [apply Hd; auto | exact Q_empty].
Qed.
End OutputInvariant.

Lemma unique_keys_dict (d : XmlDict) :
  NoDup (dict_keys d) -> Forall (fun kv => unique_keys (snd kv)) d ->
  unique_keys (JDict d).
Proof.
  intros N H. simpl. split; [exact N|].
  induction H as [|kv d Hk _ IH]; simpl; [exact I|].
  split; [exact Hk|]. apply IH.
  unfold dict_keys in N. simpl in N. apply NoDup_cons_iff in N. tauto.
Qed.

Lemma unique_keys_snoc (l : list JsonValue) (v : JsonValue) :
  unique_keys (JList l) -> unique_keys v -> unique_keys (JList (l ++ [v])).
Proof.
  simpl. induction l as [|u l IH]; simpl; [tauto|].
  intros [Hu Hl] Hv. split; [exact Hu | apply IH; assumption].
Qed.

(** X4. Every mapping in the value the converter returns, at every depth,
    has each of its keys once, whatever the element and the options: also
    when attributes collide after cleaning, when tags repeat, or when a
    child is tagged like an attribute key or like ["#text"]. *)
Theorem output_keys_unique (e : Element) (sn pm en : bool) :
  exists v, xml_to_dict e sn pm en = Ok v /\ unique_keys v.
Proof.
  apply (xml_to_dict_invariant en unique_keys).
  - intros s. exact I.
  - destruct en; simpl; [exact I | split; [apply NoDup_nil | exact I]].
  - intros u v Hu Hv _. simpl. tauto.
  - apply unique_keys_snoc.
  - intros d N _ H. apply unique_keys_dict; assumption.
Qed.

(** X5. Without [empty_elements_as_null], the value the converter returns
    holds no [None] at any depth. *)
Theorem no_none_without_option (e : Element) (sn pm : bool) :
  exists v, xml_to_dict e sn pm false = Ok v /\ no_none v = true.
Proof.
  apply (xml_to_dict_invariant false (fun v => no_none v = true)).
  - reflexivity.
  - reflexivity.
  - intros u v Hu Hv _. simpl. rewrite Hu, Hv. reflexivity.
  - intros l v Hl Hv. simpl in *. rewrite forallb_app, Hl. simpl.
    rewrite Hv. reflexivity.
  - intros d _ _ H. simpl. apply forallb_forall. apply Forall_forall. exact H.
Qed.

(** ** When an option makes no difference *)

Lemma get_text_content_trimmed (x : option string) :
  get_text_content x = Ok (trimmed_text x).
Proof. apply get_text_content_ok. Qed.

Lemma convert_children_same (kids : list Element)
  (sn1 pm1 en1 sn2 pm2 en2 : bool) :
  Forall (fun c =>
            clean_tag sn1 (tag c) = clean_tag sn2 (tag c)
            /\ xml_to_dict c sn1 pm1 en1 = xml_to_dict c sn2 pm2 en2) kids ->
  convert_children kids sn1 pm1 en1 = convert_children kids sn2 pm2 en2.
Proof.
  unfold convert_children. generalize (@nil (string * JsonValue)).
  intros acc H. revert acc.
  induction H as [|c kids [Et Ev] _ IH]; intros acc; simpl; [reflexivity|].
  rewrite Et, Ev. destruct (clean_tag sn2 (tag c)) as [k|]; simpl; [|reflexivity].
  destruct (xml_to_dict c sn2 pm2 en2) as [v|]; simpl; [|reflexivity].
  destruct (add_child acc k v); simpl; [apply IH | reflexivity].
Qed.

Lemma children_truthy (kids : list Element) (sn pm en : bool) :
  dict_truthy (fold_left file_child (filed sn pm en kids) [])
  = negb (no_children kids).
Proof. rewrite filed_truthy. destruct kids; reflexivity. Qed.

Lemma convert_children_filed (kids : list Element) (sn pm en : bool) :
  convert_children kids sn pm en
  = Ok (fold_left file_child (filed sn pm en kids) []).
Proof.
  apply convert_children_fold. apply Forall_forall. intros c _.
  eexists. apply xml_to_dict_value_of.
Qed.

(** X6. [preserve_mixed_content] matters for mixed content only: on a
    tree in which no element has both children and text that is not
    blank, the converter returns the same value with the option on and
    off. *)
Theorem mixed_option_irrelevant (e : Element) (sn en : bool) :
  no_mixed_content e = true ->
  xml_to_dict e sn true en = xml_to_dict e sn false en.
Proof.
  induction e as [t a x kids IH] using Element_nested_ind. intros H.
  cbn [no_mixed_content no_empty_element all_names] in H.
  apply andb_prop in H. destruct H as [Hm Hk].
  assert (Ek : convert_children kids sn true en = convert_children kids sn false en).
  { apply convert_children_same. clear Hm.
    induction IH as [|c kids Hc _ IHk]; simpl in *; constructor.
    - apply andb_prop in Hk. destruct Hk as [H1 _]. split; [reflexivity | auto].
    - apply andb_prop in Hk. destruct Hk as [_ H2]. auto. }
  rewrite !xml_to_dict_unfold. unfold flow_of. simpl. rewrite Ek.
  destruct (add_attributes sn a []) as [r|]; simpl; [|reflexivity].
  rewrite get_text_content_trimmed. simpl.
  rewrite convert_children_filed. simpl.
  unfold combine. rewrite children_truthy.
  destruct (no_children kids); simpl; [reflexivity|].
  simpl in Hm. apply negb_true_iff in Hm. rewrite Hm. reflexivity.
Qed.

Lemma mixed_option_irrelevant_witness :
  xml_to_dict
    (mkElement "a" [("k", "v")] (Some Scenarios.blank)
       [Scenarios.leaf "b" (Some "x"); Scenarios.leaf "c" None]) false true false
  = xml_to_dict
      (mkElement "a" [("k", "v")] (Some Scenarios.blank)
         [Scenarios.leaf "b" (Some "x"); Scenarios.leaf "c" None]) false false false.
Proof.
  apply (mixed_option_irrelevant
           (mkElement "a" [("k", "v")] (Some Scenarios.blank)
              [Scenarios.leaf "b" (Some "x"); Scenarios.leaf "c" None])
           false false).
  reflexivity.
Defined.

(** X7. [empty_elements_as_null] matters for empty elements only: on a
    tree in which every element has an attribute, a child or text that is
    not blank, the converter returns the same value with the option on and
    off. *)
Theorem null_option_irrelevant (e : Element) (sn pm : bool) :
  no_empty_element e = true ->
  xml_to_dict e sn pm true = xml_to_dict e sn pm false.
Proof.
  induction e as [t a x kids IH] using Element_nested_ind. intros H.
  cbn [no_mixed_content no_empty_element all_names] in H.
  apply andb_prop in H. destruct H as [Hm Hk].
  assert (Ek : convert_children kids sn pm true = convert_children kids sn pm false).
  { apply convert_children_same. clear Hm.
    induction IH as [|c kids Hc _ IHk]; simpl in *; constructor.
    - apply andb_prop in Hk. destruct Hk as [H1 _]. split; [reflexivity | auto].
    - apply andb_prop in Hk. destruct Hk as [_ H2]. auto. }
  rewrite !xml_to_dict_unfold. unfold flow_of. simpl. rewrite Ek.
  destruct (add_attributes_ok sn a) as (r & -> & _ & Tr). simpl.
  rewrite get_text_content_trimmed. simpl.
  rewrite convert_children_filed. simpl.
  unfold combine. rewrite children_truthy, Tr.
  set (children := fold_left file_child (filed sn pm false kids) []).
  destruct (no_children kids) eqn:Nk; simpl.
  - destruct (str_truthy (trimmed_text x)) eqn:Tx; simpl.
    + destruct (dict_truthy a); simpl; unfold final_return;
        rewrite ?dict_setitem_truthy; reflexivity.
    + destruct (dict_truthy a) eqn:Ta; simpl.
      * unfold final_return. rewrite Tr. reflexivity.
      * discriminate Hm.
  - assert (Tu : dict_truthy (dict_update r children) = true).
    { apply dict_update_truthy. unfold children. rewrite children_truthy, Nk.
      reflexivity. }
    destruct (str_truthy (trimmed_text x) && pm); simpl; unfold final_return;
      rewrite ?dict_setitem_truthy, ?Tu; reflexivity.
Qed.

Lemma null_option_irrelevant_witness :
  xml_to_dict
    (mkElement "a" [] None
       [Scenarios.leaf "b" (Some "x"); mkElement "c" [("k", "v")] None []])
    false true true
  = xml_to_dict
      (mkElement "a" [] None
         [Scenarios.leaf "b" (Some "x"); mkElement "c" [("k", "v")] None []])
      false true false.
Proof.
  apply (null_option_irrelevant
           (mkElement "a" [] None
              [Scenarios.leaf "b" (Some "x"); mkElement "c" [("k", "v")] None []])
           false true).
  reflexivity.
Defined.

Lemma key_of_no_brace (sn : bool) (k : string) :
  no_brace k = true -> key_of sn k = k.
Proof.
  unfold no_brace, key_of. intros H. apply negb_true_iff in H. rewrite H.
  rewrite andb_false_r. reflexivity.
Qed.

Lemma xml_to_dict_plain_names (e : Element) (pm en : bool) :
  all_names no_brace e = true ->
  xml_to_dict e true pm en = xml_to_dict e false pm en.
Proof.
  induction e as [t a x kids IH] using Element_nested_ind. intros H.
  cbn [no_mixed_content no_empty_element all_names] in H.
  apply andb_prop in H. destruct H as [H Hk].
  apply andb_prop in H. destruct H as [_ Ha].
  assert (Ek : convert_children kids true pm en = convert_children kids false pm en).
  { apply convert_children_same.
    induction IH as [|c kids Hc _ IHk]; simpl in *; constructor.
    - apply andb_prop in Hk. destruct Hk as [H1 _]. split; [|auto].
      rewrite !clean_tag_ok. f_equal. destruct c as [ct ca cx ck]. simpl in *.
      apply andb_prop in H1. destruct H1 as [H1 _].
      apply andb_prop in H1. destruct H1 as [H1 _].
      apply (key_of_no_brace true ct H1).
    - apply andb_prop in Hk. destruct Hk as [_ H2]. auto. }
  assert (Ea : add_attributes true a [] = add_attributes false a []).
  { rewrite !add_attributes_fold. f_equal.
    generalize (@nil (string * JsonValue)).
    induction a as [|[k s] a IHa]; intros acc; simpl in *; [reflexivity|].
    apply andb_prop in Ha. destruct Ha as [H1 H2].
    rewrite (key_of_no_brace true k H1). apply IHa. exact H2. }
  rewrite !xml_to_dict_unfold. unfold flow_of. simpl. rewrite Ek, Ea. reflexivity.
Qed.

(** X8. [strip_namespaces] matters for names with a closing brace only:
    on a tree in which no element name and no attribute name has one, the
    converter returns the same value with the option on and off. *)
Theorem strip_option_irrelevant (e : Element) (pm en : bool) :
  all_names no_brace e = true ->
  xml_to_dict e true pm en = xml_to_dict e false pm en.
Proof. apply xml_to_dict_plain_names. Qed.

Lemma strip_option_irrelevant_witness :
  xml_to_dict Scenarios.a_bb true true false
  = xml_to_dict Scenarios.a_bb false true false.
Proof.
  apply (strip_option_irrelevant Scenarios.a_bb true false). reflexivity.
Defined.

(** ** Stripping while converting, and normalising first *)

Lemma dict_setitem_at_entry (k v : string) (d : Dict string) :
  dict_setitem ("@" ++ k)%string (JStr v) (map at_entry d)
  = map at_entry (dict_setitem k v d).
Proof.
  induction d as [|[k' v'] d IH]; [reflexivity|].
  cbn [map at_entry fst snd dict_setitem]. rewrite at_prefix_eqb.
  destruct (String.eqb k k'); cbn [map at_entry fst snd]; [reflexivity|].
  f_equal. exact IH.
Qed.

Lemma fold_attributes_stripped (a acc : Dict string) :
  fold_left (fun r kv =>
               dict_setitem ("@" ++ key_of true (fst kv))%string (JStr (snd kv)) r)
    a (map at_entry acc)
  = map at_entry
      (fold_left (fun acc kv => dict_setitem (local_name (fst kv)) (snd kv) acc)
         a acc).
Proof.
  revert acc. induction a as [|[k v] a IH]; intros acc; simpl; [reflexivity|].
  change (key_of true k) with (local_name k).
  rewrite dict_setitem_at_entry. apply IH.
Qed.

Lemma add_attributes_normalized (a : Dict string) :
  add_attributes true a [] = add_attributes false (normalized_attrib a) [].
Proof.
  rewrite !add_attributes_fold. f_equal.
  etransitivity; [exact (fold_attributes_stripped a [])|].
  rewrite (fold_attributes_append false (normalized_attrib a) []).
  - reflexivity.
  - simpl. apply NoDup_at_prefix.
    rewrite map_ext with (g := fun k => k) by reflexivity.
    rewrite map_id. apply normalized_attrib_NoDup.
Qed.

Lemma convert_children_related (kids1 kids2 : list Element)
  (sn1 pm1 en1 sn2 pm2 en2 : bool) :
  Forall2 (fun c1 c2 =>
             clean_tag sn1 (tag c1) = clean_tag sn2 (tag c2)
             /\ xml_to_dict c1 sn1 pm1 en1 = xml_to_dict c2 sn2 pm2 en2)
    kids1 kids2 ->
  convert_children kids1 sn1 pm1 en1 = convert_children kids2 sn2 pm2 en2.
Proof.
  unfold convert_children. generalize (@nil (string * JsonValue)).
  intros acc H. revert acc.
  induction H as [|c1 c2 kids1 kids2 [Et Ev] _ IH]; intros acc; simpl.
  - reflexivity.
  - rewrite Et, Ev. destruct (clean_tag sn2 (tag c2)) as [k|]; simpl; [|reflexivity].
    destruct (xml_to_dict c2 sn2 pm2 en2) as [v|]; simpl; [|reflexivity].
    destruct (add_child acc k v); simpl; [apply IH | reflexivity].
Qed.

Lemma tag_normalized (e : Element) : tag (normalized e) = local_name (tag e).
Proof. destruct e. reflexivity. Qed.

Lemma no_brace_local_name_clean (t : string) :
  clean_tag true t = clean_tag false (local_name t).
Proof. rewrite !clean_tag_ok. reflexivity. Qed.

Lemma xml_to_dict_normalized (e : Element) (pm en : bool) :
  xml_to_dict e true pm en = xml_to_dict (normalized e) false pm en.
Proof.
  induction e as [t a x kids IH] using Element_nested_ind.
  assert (Ek : convert_children kids true pm en
               = convert_children (map normalized kids) false pm en).
  { apply convert_children_related.
    induction IH as [|c kids Hc _ IHk]; simpl; constructor; [|exact IHk].
    split; [|exact Hc]. rewrite tag_normalized. apply no_brace_local_name_clean. }
  rewrite !xml_to_dict_unfold. unfold flow_of. simpl.
  rewrite add_attributes_normalized, Ek. reflexivity.
Qed.

(** X9. Stripping namespaces while converting gives what normalising
    first and converting without the option gives: for every tree, the
    converter with [strip_namespaces] returns on the tree the value it
    returns, with the option off, on the tree the normaliser leaves. *)
Theorem strip_while_converting (tree : ElementTree) (pm en : bool) :
  exists tree',
    preprocess_xml_tree tree true = Ok tree'
    /\ xml_to_dict (getroot tree) true pm en
       = xml_to_dict (getroot tree') false pm en.
Proof.
  rewrite preprocess_xml_tree_ok. eexists. split; [reflexivity|].
  simpl. apply xml_to_dict_normalized.
Qed.

(** Lines 167-176 on trees, where no frame is counted: with
    [preserve_root] they give a mapping of one entry, whose value is no
    list. When the names of the tree have one closing brace at most, or
    [strip_namespaces] is off, the normaliser changes nothing of what the
    converter returns: the value is the one the converter gives on the
    tree as parsed, and the key is the root tag, cleaned. *)
Lemma json_data_on_tree (tree : ElementTree) (pr sn pm en : bool) :
  (exists v,
      json_data tree pr sn pm en = Ok v
      /\ (if pr then exists k w, v = JDict [(k, w)] /\ is_list w = false
          else is_list v = false))
  /\ (sn = false \/ all_names at_most_one_brace (getroot tree) = true ->
      exists w,
        xml_to_dict (getroot tree) sn pm en = Ok w
        /\ json_data tree pr sn pm en
           = Ok (if pr then JDict [(key_of sn (tag (getroot tree)), w)] else w)).
Proof.
  unfold json_data. rewrite preprocess_xml_tree_ok. simpl.
  set (root := getroot (if sn then mkElementTree (normalized (getroot tree)) else tree)).
  split.
  - destruct (xml_to_dict_sound root sn pm en) as (w & Ew & Sw & _).
    apply shaped_not_list in Sw. rewrite Ew. simpl.
    destruct pr; eexists; (split; [reflexivity|]); eauto.
  - intros H. destruct (xml_to_dict_sound (getroot tree) sn pm en) as (w & Ew & _).
    exists w. split; [exact Ew|].
    assert (Er : xml_to_dict root sn pm en = Ok w /\ tag root = key_of sn (tag (getroot tree))).
    { unfold root. destruct sn; simpl.
      - destruct H as [H|H]; [discriminate|]. split.
        + rewrite xml_to_dict_plain_names by (apply normalized_names; exact H).
          rewrite <- xml_to_dict_normalized. exact Ew.
        + apply tag_normalized.
      - split; [exact Ew | reflexivity]. }
    destruct Er as [-> ->]. simpl. destruct pr; reflexivity.
Qed.

(** ** What the normaliser leaves alone *)

Lemma fold_setitem_distinct {A V : Type} (g : A -> string) (h : A -> V)
  (l : list A) (acc : Dict V) :
  NoDup (dict_keys acc ++ map g l) ->
  fold_left (fun acc x => dict_setitem (g x) (h x) acc) l acc
  = acc ++ map (fun x => (g x, h x)) l.
Proof.
  revert acc. induction l as [|x l IH]; intros acc ND; simpl.
  - rewrite app_nil_r. reflexivity.
  - simpl in ND.
    assert (Hnew : ~ In (g x) (dict_keys acc)).
    { apply NoDup_remove in ND. destruct ND as [_ Hno].
      intros I. apply Hno. apply in_or_app. left. exact I. }
    rewrite (dict_setitem_new _ _ acc Hnew), IH.
    + rewrite <- app_assoc. reflexivity.
    + unfold dict_keys in *. rewrite map_app, <- app_assoc. exact ND.
Qed.

Lemma normalized_attrib_distinct (a : Dict string) :
  NoDup (map local_name (dict_keys a)) ->
  normalized_attrib a = map (fun kv => (local_name (fst kv), snd kv)) a.
Proof.
  intros ND. unfold normalized_attrib.
  rewrite (fold_setitem_distinct (fun kv => local_name (fst kv)) snd a []).
  - reflexivity.
  - simpl. unfold dict_keys in ND. rewrite map_map in ND. exact ND.
Qed.

Lemma skeleton_normalized (e : Element) : skeleton (normalized e) = skeleton e.
Proof.
  induction e as [t a x kids IH] using Element_nested_ind. simpl. f_equal.
  rewrite map_map. induction IH as [|c kids Hc _ IHk]; simpl; [reflexivity|].
  rewrite Hc, IHk. reflexivity.
Qed.

Lemma nameless_normalized (e : Element) :
  names_stay_distinct e -> nameless (normalized e) = nameless e.
Proof.
  induction e as [t a x kids IH] using Element_nested_ind. simpl.
  intros [ND Hk]. f_equal.
  - rewrite (normalized_attrib_distinct a ND), map_map. reflexivity.
  - rewrite map_map. induction IH as [|c kids Hc _ IHk]; simpl in *; [reflexivity|].
    destruct Hk as [H1 H2]. rewrite (Hc H1), (IHk H2). reflexivity.
Qed.

(** X11. The normaliser changes names only. Whatever the tree, the tree
    it leaves has the texts and the shape of the tree it was given; and
    where the attribute names of each element stay distinct once cut, it
    has its attribute values too, each in its place. *)
Theorem normalizer_changes_names_only (e : Element) :
  exists e',
    preprocess_element e = Ok e'
    /\ skeleton e' = skeleton e
    /\ (names_stay_distinct e -> nameless e' = nameless e).
Proof.
  exists (normalized e). split; [apply preprocess_element_ok|].
  split; [apply skeleton_normalized | apply nameless_normalized].
Qed.

Lemma normalizer_changes_names_only_witness :
  exists e',
    preprocess_element
      (mkElement "{u}r" [("{u}k", "1"); ("j", "2")] (Some "t")
         [mkElement "{u}a" [] None []]) = Ok e'
    /\ nameless e'
       = mkElement "" [("", "1"); ("", "2")] (Some "t") [mkElement "" [] None []].
Proof.
  destruct (normalizer_changes_names_only
              (mkElement "{u}r" [("{u}k", "1"); ("j", "2")] (Some "t")
                 [mkElement "{u}a" [] None []])) as (e' & E & _ & H).
  exists e'. split; [exact E|]. rewrite H; [reflexivity|].
  simpl. repeat split; repeat constructor; simpl; intuition discriminate.
Defined.

(** ** The normaliser in place *)

Lemma laid_out_inv (st : gmap loc ElementObj) (l : loc) (e : Element) (ls : list loc) :
  laid_out st l e ls ->
  exists o below,
    st !! l = Some o
    /\ tag e = obj_tag o /\ attrib e = obj_attrib o /\ text e = obj_text o
    /\ Forall3 (laid_out st) (obj_children o) (child_elements e) below
    /\ ls = l :: concat below.
Proof.
  intros H. inversion H as [l' o kids below Ho Hk]; subst.
  exists o, below. simpl. auto 10.
Qed.

Lemma laid_out_represents (st : gmap loc ElementObj) (e : Element) :
  forall l ls, laid_out st l e ls -> represents st l e.
Proof.
  induction e as [t a x kids IH] using Element_nested_ind. intros l ls H.
  destruct (laid_out_inv _ _ _ _ H) as (o & below & Ho & Et & Ea & Ex & Hk & _).
  simpl in *. subst t a x. apply represents_node; [exact Ho|].
  clear Ho H. induction Hk as [|lc c lsc locs kids below Hc Hk IHk].
  - constructor.
  - apply Forall_cons_iff in IH. destruct IH as [IHc IHr].
    constructor; [apply (IHc lc lsc Hc) | apply IHk; exact IHr].
Qed.

Lemma iter_at_tree (st : gmap loc ElementObj) (e : Element) :
  forall (l : loc) (ls : list loc) (depth : nat),
    laid_out st l e ls ->
    height e <= depth ->
    iter_at depth l st = (Ok ls, st).
Proof.
  induction e as [t a x kids IH] using Element_nested_ind.
  intros l ls depth H Hd.
  destruct (laid_out_inv _ _ _ _ H) as (o & below & Ho & _ & _ & _ & Hk & ->).
  simpl in Hk.
  destruct depth as [|depth]; [simpl in Hd; lia|].
  assert (Hh : forall c, In c kids -> height c <= depth).
  { intros c Hc. apply height_child in Hc. simpl in Hd. lia. }
  clear Hd H. cbn [iter_at].
  unfold st_bind at 1. unfold st_read at 1. rewrite Ho. unfold st_bind at 1.
  match goal with
  | |- context [for_each_m ?bm (obj_children o) [] st] =>
      assert (L : forall seen,
                 for_each_m bm (obj_children o) seen st
                 = (Ok (seen ++ concat below), st))
  end.
  { clear Ho. revert Hh IH.
    induction Hk as [|lc c lsc locs kids below Hc Hk IHk]; intros Hh IH seen.
    - simpl. rewrite app_nil_r. reflexivity.
    - apply Forall_cons_iff in IH. destruct IH as [IHc IHr].
      cbn [for_each_m]. unfold st_bind at 1. unfold st_bind at 1.
      rewrite (IHc lc lsc depth Hc (Hh c (or_introl eq_refl))).
      unfold st_ret at 1. rewrite IHk; [|intros c' Hc'; apply Hh; right; exact Hc' | exact IHr].
      simpl. rewrite <- app_assoc. reflexivity. }
  rewrite L. reflexivity.
Qed.

Lemma rebuild_attrib_ok (a : Dict string) :
  rebuild_attrib a = Ok (normalized_attrib a).
Proof.
  destruct a as [|kv a]; [reflexivity|].
  rewrite <- (preprocess_attrib_ok (kv :: a)). reflexivity.
Qed.

(** Lines 99-108 for one object of the store. *)
Lemma preprocess_elem_at_ok (st : gmap loc ElementObj) (l : loc) (o : ElementObj) :
  st !! l = Some o ->
  preprocess_elem_at l st = (Ok tt, <[l := normalized_obj o]> st).
Proof.
  intros Ho. destruct o as [t a x kids]. unfold normalized_obj, local_name. simpl.
  unfold preprocess_elem_at.
  unfold st_bind at 1. unfold st_read at 1. rewrite Ho. simpl obj_tag.
  unfold st_bind at 1.
  destruct (str_contains "}" t) eqn:Ct.
  - destruct (str_split1_contains _ _ Ct) as [h Eh]. rewrite Eh.
    unfold st_bind at 1. unfold st_lift at 1. cbn [list_getitem nth_error].
    unfold st_write_tag at 1. rewrite Ho. simpl.
    unfold st_bind at 1. unfold st_read at 1. rewrite lookup_insert_eq. simpl.
    destruct (dict_truthy a) eqn:Ta.
    + unfold st_bind at 1. unfold st_lift at 1. rewrite rebuild_attrib_ok.
      unfold st_write_attrib. rewrite lookup_insert_eq. simpl.
      rewrite insert_insert_eq. reflexivity.
    + destruct a; [reflexivity | discriminate].
  - unfold st_ret at 1.
    unfold st_bind at 1. unfold st_read at 1. rewrite Ho. simpl.
    destruct (dict_truthy a) eqn:Ta.
    + unfold st_bind at 1. unfold st_lift at 1. rewrite rebuild_attrib_ok.
      unfold st_write_attrib. rewrite Ho. reflexivity.
    + destruct a; [|discriminate]. unfold st_ret.
      rewrite insert_id; [reflexivity | exact Ho].
Qed.

Lemma alter_present (st : gmap loc ElementObj) (l : loc) (o : ElementObj) :
  st !! l = Some o -> alter normalized_obj l st = <[l := normalized_obj o]> st.
Proof.
  intros Ho. apply map_eq. intros i. destruct (decide (l = i)) as [->|N].
  - rewrite lookup_alter_eq, lookup_insert_eq, Ho. reflexivity.
  - rewrite lookup_alter_ne, lookup_insert_ne by exact N. reflexivity.
Qed.

Lemma normalizer_loop (ls : list loc) (st : gmap loc ElementObj) :
  (forall l, In l ls -> is_Some (st !! l)) ->
  for_each_m (fun elem _ => preprocess_elem_at elem) ls tt st
  = (Ok tt, normalized_store ls st).
Proof.
  revert st. induction ls as [|l ls IH]; intros st H; [reflexivity|].
  cbn [for_each_m]. unfold st_bind.
  destruct (H l (or_introl eq_refl)) as [o Ho].
  rewrite (preprocess_elem_at_ok st l o Ho), <- (alter_present st l o Ho).
  unfold normalized_store. simpl. apply IH.
  intros l' Hl'. destruct (decide (l = l')) as [->|N].
  - rewrite lookup_alter_eq, Ho. eexists. reflexivity.
  - rewrite lookup_alter_ne by exact N. apply H. right. exact Hl'.
Qed.

Lemma normalized_store_outside (ls : list loc) (st : gmap loc ElementObj) (l : loc) :
  ~ In l ls -> normalized_store ls st !! l = st !! l.
Proof.
  revert st. induction ls as [|l0 ls IH]; intros st H; [reflexivity|].
  unfold normalized_store in *. simpl. rewrite IH.
  - apply lookup_alter_ne. intros ->. apply H. left. reflexivity.
  - intros I. apply H. right. exact I.
Qed.

Lemma normalized_store_inside (ls : list loc) (st : gmap loc ElementObj) (l : loc) :
  NoDup ls -> In l ls ->
  normalized_store ls st !! l = normalized_obj <$> st !! l.
Proof.
  revert st. induction ls as [|l0 ls IH]; intros st ND H; [destruct H|].
  apply NoDup_cons_iff in ND. destruct ND as [Hl0 ND].
  unfold normalized_store in *. simpl.
  destruct (decide (l0 = l)) as [->|N].
  - fold (normalized_store ls (alter normalized_obj l st)).
    rewrite (normalized_store_outside ls _ l Hl0). apply lookup_alter_eq.
  - destruct H as [E|H]; [contradiction|].
    rewrite (IH _ ND H). rewrite lookup_alter_ne by exact N. reflexivity.
Qed.

Lemma height_normalized (e : Element) : height (normalized e) = height e.
Proof.
  induction e as [t a x kids IH] using Element_nested_ind. simpl. f_equal.
  induction IH as [|c kids Hc _ IHk]; simpl; [reflexivity|].
  rewrite Hc, IHk. reflexivity.
Qed.

(** After the pass, the store holds the normalised tree. *)
Lemma normalized_store_represents (st : gmap loc ElementObj) (ls : list loc)
  (e : Element) :
  NoDup ls ->
  forall l ls',
    laid_out st l e ls' ->
    (forall i, In i ls' -> In i ls) ->
    represents (normalized_store ls st) l (normalized e).
Proof.
  intros ND. induction e as [t a x kids IH] using Element_nested_ind.
  intros l ls' H Hin.
  destruct (laid_out_inv _ _ _ _ H) as (o & below & Ho & Et & Ea & Ex & Hk & ->).
  simpl in *. subst t a x.
  assert (Hl : normalized_store ls st !! l = Some (normalized_obj o)).
  { rewrite (normalized_store_inside ls st l ND (Hin l (or_introl eq_refl))), Ho.
    reflexivity. }
  apply (represents_node (normalized_store ls st) l (normalized_obj o)
           (map normalized kids) Hl).
  simpl obj_children.
  assert (Hb : forall i, In i (concat below) -> In i ls).
  { intros i Hi. apply Hin. right. exact Hi. }
  clear Ho H Hl Hin. induction Hk as [|lc c lsc locs kids below Hc Hk IHk].
  - constructor.
  - apply Forall_cons_iff in IH. destruct IH as [IHc IHr]. simpl.
    constructor.
    + apply (IHc lc lsc Hc). intros i Hi. apply Hb. simpl.
      apply in_or_app. left. exact Hi.
    + apply IHk; [exact IHr|]. intros i Hi. apply Hb. simpl.
      apply in_or_app. right. exact Hi.
Qed.

Lemma laid_out_present (st : gmap loc ElementObj) (e : Element) :
  forall l ls, laid_out st l e ls -> forall i, In i ls -> is_Some (st !! i).
Proof.
  induction e as [t a x kids IH] using Element_nested_ind. intros l ls H.
  destruct (laid_out_inv _ _ _ _ H) as (o & below & Ho & _ & _ & _ & Hk & ->).
  simpl in Hk. intros i [<-|Hi]; [eexists; exact Ho|].
  clear Ho H. induction Hk as [|lc c lsc locs kids below Hc Hk IHk];
    [destruct Hi|].
  apply Forall_cons_iff in IH. destruct IH as [IHc IHr].
  simpl in Hi. apply in_app_or in Hi. destruct Hi as [Hi|Hi].
  - apply (IHc lc lsc Hc i Hi).
  - apply IHk; assumption.
Qed.

Lemma preprocess_xml_tree_at_tree (st : gmap loc ElementObj) (root : loc)
  (e : Element) (ls : list loc) (depth : nat) :
  laid_out st root e ls ->
  NoDup ls ->
  height e <= depth ->
  preprocess_xml_tree_at depth root true st = (Ok tt, normalized_store ls st).
Proof.
  intros H ND Hd. unfold preprocess_xml_tree_at, st_bind.
  rewrite (iter_at_tree st e root ls depth H Hd).
  apply normalizer_loop. apply (laid_out_present st e root ls H).
Qed.

(** X12. The normaliser on the store. When the store holds a tree whose
    elements are distinct objects, and there are frames enough for its
    nesting depth, the pass with [strip_namespaces] raises nothing and
    leaves a store that holds, at the same root, the tree the normaliser
    on trees computes; an object that is not in the tree is left as it
    was. With the option off the store is left as it was. *)
Theorem normalizer_in_place (st : gmap loc ElementObj) (root : loc)
  (e : Element) (ls : list loc) (depth : nat) :
  laid_out st root e ls ->
  NoDup ls ->
  height e <= depth ->
  (exists st' e',
      preprocess_xml_tree (mkElementTree e) true = Ok (mkElementTree e')
      /\ preprocess_xml_tree_at depth root true st = (Ok tt, st')
      /\ represents st' root e'
      /\ forall l, ~ In l ls -> st' !! l = st !! l)
  /\ preprocess_xml_tree_at depth root false st = (Ok tt, st).
Proof.
  intros H ND Hd. split; [|reflexivity].
  exists (normalized_store ls st), (normalized e).
  split; [rewrite preprocess_xml_tree_ok; reflexivity|].
  split; [apply (preprocess_xml_tree_at_tree st root e ls depth H ND Hd)|].
  split.
  - apply (normalized_store_represents st ls e ND root ls H). auto.
  - intros l Hl. apply normalized_store_outside. exact Hl.
Qed.

Lemma ns_nested_store_laid_out :
  laid_out Scenarios.ns_nested_store 0 ns_nested_tree [0; 1; 2].
Proof.
  apply (laid_out_node Scenarios.ns_nested_store 0
           (mkElementObj "r" [("{u}k", "1")] None [1; 2])
           [mkElement "{u}a" [] None [];
            mkElement "b" [("{u}k", "2"); ("k", "3")] None []]
           [[1]; [2]]).
  - reflexivity.
  - constructor; [|constructor; [|constructor]].
    + apply (laid_out_node Scenarios.ns_nested_store 1
               (mkElementObj "{u}a" [] None []) [] []);
        [reflexivity | constructor].
    + apply (laid_out_node Scenarios.ns_nested_store 2
               (mkElementObj "b" [("{u}k", "2"); ("k", "3")] None []) [] []);
        [reflexivity | constructor].
Qed.

Lemma NoDup_012 : NoDup [0; 1; 2].
Proof. repeat constructor; simpl; lia. Qed.

Lemma normalizer_in_place_witness :
  exists st' e',
    preprocess_xml_tree (mkElementTree ns_nested_tree) true = Ok (mkElementTree e')
    /\ preprocess_xml_tree_at 2 0 true Scenarios.ns_nested_store = (Ok tt, st')
    /\ represents st' 0 e'
    /\ forall l, ~ In l [0; 1; 2] -> st' !! l = Scenarios.ns_nested_store !! l.
Proof.
  destruct (normalizer_in_place Scenarios.ns_nested_store 0 ns_nested_tree
              [0; 1; 2] 2) as [H _].
  - exact ns_nested_store_laid_out.
  - exact NoDup_012.
  - simpl. lia.
  - exact H.
Defined.

(** Lines 167-176 on the store, against the same lines on trees. *)
Lemma json_data_at_tree (st : gmap loc ElementObj) (root : loc)
  (e : Element) (ls : list loc) (depth : nat) (pr sn pm en : bool) :
  laid_out st root e ls ->
  NoDup ls ->
  height e <= depth ->
  exists st',
    json_data_at depth root pr sn pm en st
    = (json_data (mkElementTree e) pr sn pm en, st')
    /\ (forall l, ~ In l ls -> st' !! l = st !! l)
    /\ (sn = false -> st' = st).
Proof.
  intros H ND Hd.
  set (st' := if sn then normalized_store ls st else st).
  set (e' := if sn then normalized e else e).
  assert (Hp : preprocess_xml_tree_at depth root sn st = (Ok tt, st')).
  { unfold st'. destruct sn; [|reflexivity].
    apply (preprocess_xml_tree_at_tree st root e ls depth H ND Hd). }
  assert (Hr : represents st' root e').
  { unfold st', e'. destruct sn.
    - apply (normalized_store_represents st ls e ND root ls H). auto.
    - apply (laid_out_represents st e root ls H). }
  assert (Hh : height e' <= depth).
  { unfold e'. destruct sn; [rewrite height_normalized|]; exact Hd. }
  exists st'. split; [|split].
  - unfold json_data_at, json_data. unfold st_bind at 1. rewrite Hp.
    rewrite preprocess_xml_tree_ok.
    replace (if sn then mkElementTree (normalized (getroot (mkElementTree e)))
             else mkElementTree e) with (mkElementTree e')
      by (unfold e'; destruct sn; reflexivity).
    cbn [exc_bind getroot].
    destruct (represents_inv _ _ _ Hr) as (o & Ho & Et & _).
    destruct pr.
    + unfold st_bind at 1. unfold st_read at 1. rewrite Ho, <- Et.
      unfold st_bind at 1.
      rewrite (xml_to_dict_at_tree st' e' root depth sn pm en Hr Hh).
      destruct (xml_to_dict e' sn pm en); reflexivity.
    + apply (xml_to_dict_at_tree st' e' root depth sn pm en Hr Hh).
  - intros l Hl. unfold st'. destruct sn; [|reflexivity].
    apply normalized_store_outside. exact Hl.
  - intros ->. reflexivity.
Qed.



(** ** The batch *)

Section BatchFacts.
Context {World Path Error : Type}.
Variable path_exists : Path -> World -> bool.
Variable path_is_dir : Path -> World -> bool.
Variable path_is_file : Path -> World -> bool.
Variable path_iterdir : Path -> World -> Outcome Error (list Path).
Variable path_suffix_lower : Path -> string.
Variable json_beside : Path -> Path -> Path.
Variable convert_xml_to_json : Path -> Path -> World -> Outcome Error bool * World.

Lemma convert_each_counts (output_path : Path) (xml_files : list Path) :
  forall (success_count : nat) (w : World) results w',
    attempts json_beside convert_xml_to_json output_path xml_files w
    = (results, w') ->
    forallb returned results = true ->
    length results = length xml_files
    /\ exists n,
         convert_each json_beside convert_xml_to_json output_path xml_files
           success_count w = (Returns n, w')
         /\ n <= success_count + length xml_files
         /\ (n = success_count + length xml_files
             <-> forallb returned_true results = true).
Proof.
  induction xml_files as [|f files IH]; intros c w results w' Ha Hr; simpl in *.
  - injection Ha as <- <-. split; [reflexivity|]. exists c.
    split; [reflexivity|]. split; [lia|]. split; [reflexivity | lia].
  - destruct (convert_xml_to_json f (json_beside output_path f) w) as [[b|err] w1].
    2:{ injection Ha as <- <-. discriminate Hr. }
    destruct (attempts json_beside convert_xml_to_json output_path files w1)
      as [rs w2] eqn:Er.
    injection Ha as <- <-. simpl in Hr.
    destruct b.
    + destruct (IH (c + 1) w1 rs w2 Er Hr) as (Hl & n & En & Hle & Hiff).
      split; [simpl; f_equal; exact Hl|]. exists n.
      split; [exact En|]. split; [lia|]. simpl. rewrite <- Hiff. lia.
    + destruct (IH c w1 rs w2 Er Hr) as (Hl & n & En & Hle & Hiff).
      split; [simpl; f_equal; exact Hl|]. exists n.
      split; [exact En|]. split; [lia|]. simpl. split; [lia | discriminate].
Qed.

(** X14. The batch over an existing directory with at least one XML file,
    when no conversion raises: every file is converted, one after the
    other in the order of the listing and also after one has failed, and
    the batch returns [True] exactly when every conversion returned
    [True]. *)
Theorem batch_true_iff_all_converted (input_dir : Path) (output_dir : option Path)
  (w w' : World) (listing : list Path) (results : list (Outcome Error bool)) :
  path_exists input_dir w = true ->
  path_is_dir input_dir w = true ->
  path_iterdir input_dir w = Returns listing ->
  select_xml_files path_is_file path_suffix_lower listing w <> [] ->
  attempts json_beside convert_xml_to_json
    (match output_dir with Some d => d | None => input_dir end)
    (select_xml_files path_is_file path_suffix_lower listing w) w
  = (results, w') ->
  forallb returned results = true ->
  batch_convert_xml_to_json path_exists path_is_dir path_is_file path_iterdir
    path_suffix_lower json_beside convert_xml_to_json input_dir output_dir w
  = (Returns (forallb returned_true results), w')
  /\ length results
     = length (select_xml_files path_is_file path_suffix_lower listing w).
Proof.
  intros He Hd Hi Hn Ha Hr. unfold batch_convert_xml_to_json.
  rewrite He, Hd, Hi. simpl.
  set (files := select_xml_files path_is_file path_suffix_lower listing w) in *.
  destruct (convert_each_counts _ files 0 w results w' Ha Hr)
    as (Hl & n & En & Hle & Hiff).
  split; [|exact Hl].
  destruct files as [|f files'] eqn:Ef; [contradiction|].
  rewrite <- Ef in *. rewrite En. f_equal. f_equal.
  simpl in Hiff. destruct (forallb returned_true results).
  - apply Nat.eqb_eq. apply Hiff. reflexivity.
  - apply Nat.eqb_neq. intros E. apply Hiff in E. discriminate E.
Qed.
End BatchFacts.

Lemma batch_true_iff_all_converted_witness :
  batch_convert_xml_to_json
    (fun _ _ => true) (fun _ _ => true) (fun _ _ => true)
    (fun _ _ => Returns ["a.xml"; "notes.txt"; "b.xml"; "c.xml"])
    toy_suffix (fun d f => f) toy_convert "dir" None []
  = (Returns false, ["a.xml"; "b.xml"; "c.xml"]).
Proof.
  apply (batch_true_iff_all_converted
           (fun _ _ => true) (fun _ _ => true) (fun _ _ => true)
           (fun _ _ => Returns ["a.xml"; "notes.txt"; "b.xml"; "c.xml"])
           toy_suffix (fun d f => f) toy_convert "dir" None []
           ["a.xml"; "b.xml"; "c.xml"]
           ["a.xml"; "notes.txt"; "b.xml"; "c.xml"]
           [Returns true; Returns false; Returns true]); try reflexivity.
  discriminate.
Defined.

(** ** The order of the keys *)

Lemma absent_from_In (ks : list string) (x : string) :
  absent_from ks x = true <-> ~ In x ks.
Proof.
  unfold absent_from. rewrite negb_true_iff. split.
  - intros H I. assert (E : existsb (String.eqb x) ks = true).
    { apply existsb_exists. exists x. split; [exact I | apply String.eqb_refl]. }
    congruence.
  - intros H. destruct (existsb (String.eqb x) ks) eqn:E; [|reflexivity].
    apply existsb_exists in E. destruct E as (y & I & Ey).
    apply String.eqb_eq in Ey. subst y. contradiction.
Qed.

Lemma filter_filter_comm {A : Type} (p q : A -> bool) (l : list A) :
  List.filter p (List.filter q l) = List.filter (fun x => q x && p x) l.
Proof.
  induction l as [|x l IH]; simpl; [reflexivity|].
  destruct (q x); simpl; [destruct (p x); simpl; rewrite IH; reflexivity | exact IH].
Qed.

Lemma filter_ext_in' {A : Type} (p q : A -> bool) (l : list A) :
  (forall x, p x = q x) -> List.filter p l = List.filter q l.
Proof.
  intros H. induction l as [|x l IH]; simpl; [reflexivity|].
  rewrite H, IH. reflexivity.
Qed.

Lemma dict_in_keys {V : Type} (k : string) (d : Dict V) :
  dict_in k d = negb (absent_from (dict_keys d) k).
Proof.
  unfold dict_in, absent_from. rewrite negb_involutive.
  induction d as [|[k' v'] d IH]; simpl; [reflexivity|].
  destruct (String.eqb k k'); simpl; [reflexivity | exact IH].
Qed.

(** The keys of [children] after the loop: the keys of the children, each
    where it first occurred. *)
Lemma filed_keys (l : list (string * JsonValue)) (acc : XmlDict) :
  dict_keys (fold_left file_child l acc)
  = dict_keys acc
    ++ List.filter (absent_from (dict_keys acc)) (first_occurrences (map fst l)).
Proof.
  revert acc. induction l as [|[k v] l IH]; intros acc; simpl.
  - rewrite app_nil_r. reflexivity.
  - rewrite IH. unfold file_child. simpl. rewrite dict_keys_setitem, dict_in_keys.
    rewrite filter_filter_comm.
    destruct (absent_from (dict_keys acc) k) eqn:Ek; simpl.
    + rewrite <- app_assoc. simpl. f_equal. f_equal.
      apply filter_ext_in'. intros x. unfold absent_from.
      rewrite existsb_app. simpl. rewrite orb_false_r, negb_orb.
      apply andb_comm.
    + f_equal. apply filter_ext_in'. intros x.
      destruct (String.eqb_spec x k) as [->|N]; simpl.
      * rewrite Ek. reflexivity.
      * reflexivity.
Qed.

Lemma first_occurrences_incl (ks : list string) (x : string) :
  In x (first_occurrences ks) -> In x ks.
Proof.
  induction ks as [|k ks IH]; simpl; [tauto|].
  intros [E|I]; [left; exact E|]. right. apply IH.
  apply filter_In in I. tauto.
Qed.

(** X15. The order of the keys. For an element whose attribute names
    stay distinct once cleaned and whose children are filed under keys
    that neither start with [@] nor are ["#text"], and that has an
    attribute or a child: the value returned is a mapping whose keys are,
    in this order, the attribute names with [@] in front, the keys of the
    children, each where it first occurs, and ["#text"] when the text has
    an entry. *)
Theorem output_key_order (e : Element) (sn pm en : bool) (t : string) :
  get_text_content (text e) = Ok t ->
  attrib e <> [] \/ child_elements e <> [] ->
  NoDup (map (key_of sn) (dict_keys (attrib e))) ->
  forallb (fun k => negb (starts_with_at k) && negb (String.eqb k "#text"))
    (child_keys sn e) = true ->
  exists d,
    xml_to_dict e sn pm en = Ok (JDict d)
    /\ dict_keys d
       = map (fun k => ("@" ++ key_of sn k)%string) (dict_keys (attrib e))
         ++ first_occurrences (child_keys sn e)
         ++ (if text_kept pm e t then ["#text"] else []).
Proof.
  intros Ht Hne ND Hck.
  set (r := attribute_entries sn (attrib e)).
  assert (Er : add_attributes sn (attrib e) [] = Ok r).
  { rewrite add_attributes_fold.
    rewrite (fold_attributes_append sn (attrib e) [])
      by (apply NoDup_at_prefix; exact ND). reflexivity. }
  assert (Kr : dict_keys r
               = map (fun k => ("@" ++ key_of sn k)%string) (dict_keys (attrib e))).
  { unfold r. rewrite attribute_entries_keys, map_map. reflexivity. }
  set (children := fold_left file_child (filed sn pm en (child_elements e)) []).
  assert (Kc : dict_keys children = first_occurrences (child_keys sn e)).
  { unfold children. rewrite filed_keys. simpl.
    assert (Em : map fst (filed sn pm en (child_elements e)) = child_keys sn e).
    { unfold filed, child_keys. rewrite map_map. reflexivity. }
    rewrite Em. clear.
    induction (first_occurrences (child_keys sn e)) as [|k ks IH];
      simpl; [reflexivity | rewrite IH; reflexivity]. }
  assert (Hkeys : forall k, In k (dict_keys children) ->
                    starts_with_at k = false /\ k <> "#text").
  { intros k Hk. rewrite Kc in Hk. apply first_occurrences_incl in Hk.
    rewrite forallb_forall in Hck. specialize (Hck k Hk).
    apply andb_prop in Hck. destruct Hck as [H1 H2].
    apply negb_true_iff in H1, H2. split; [exact H1|].
    intros ->. discriminate H2. }
  assert (Nc : NoDup (dict_keys children)).
  { apply filed_NoDup. apply NoDup_nil. }
  assert (Eu : dict_update r children = r ++ children).
  { apply dict_update_append. unfold dict_keys. rewrite map_app.
    apply NoDup_app.
    - fold (dict_keys r). rewrite Kr. rewrite <- map_map.
      apply NoDup_at_prefix. exact ND.
    - exact Nc.
    - fold (dict_keys r) (dict_keys children). intros k Hr Hc.
      destruct (Hkeys k Hc) as [Hs _]. rewrite Kr in Hr.
      apply in_map_iff in Hr. destruct Hr as (k0 & <- & _). discriminate Hs. }
  assert (Hnt : forall d : XmlDict, dict_keys d = dict_keys r ++ dict_keys children
                          \/ dict_keys d = dict_keys r ->
                 ~ In "#text" (dict_keys d)).
  { intros d Hd I.
    assert (Hr : ~ In "#text" (dict_keys r)).
    { rewrite Kr, <- map_map. apply at_prefix_not_text. }
    destruct Hd as [Hd|Hd]; rewrite Hd in I; [|contradiction].
    apply in_app_or in I. destruct I as [I|I]; [contradiction|].
    destruct (Hkeys _ I) as [_ N]. apply N. reflexivity. }
  rewrite xml_to_dict_unfold. unfold flow_of.
  rewrite Er, Ht, convert_children_filed. fold children. simpl.
  assert (Tc : dict_truthy children = negb (no_children (child_elements e)))
    by apply children_truthy.
  unfold combine, text_kept. rewrite Tc.
  assert (Tr : dict_truthy r = dict_truthy (attrib e)).
  { unfold r, attribute_entries. destruct (attrib e); reflexivity. }
  destruct (no_children (child_elements e)) eqn:Nk; simpl.
  - assert (Ec : dict_keys children = []).
    { rewrite Kc. unfold child_keys. destruct (child_elements e); [reflexivity | discriminate]. }
    assert (Ta : dict_truthy r = true).
    { rewrite Tr. destruct Hne as [H|H].
      - destruct (attrib e); [contradiction | reflexivity].
      - destruct (child_elements e); [contradiction | discriminate]. }
    rewrite <- Kr, <- Kc, Ec, Ta, orb_true_r, andb_true_r. simpl.
    destruct (str_truthy t); simpl; unfold final_return;
      rewrite ?dict_setitem_truthy, ?Ta; eexists; (split; [reflexivity|]).
    + rewrite dict_setitem_new by (apply Hnt; right; reflexivity).
      unfold dict_keys. rewrite map_app. reflexivity.
    + rewrite app_nil_r. reflexivity.
  - assert (Tu : dict_truthy (dict_update r children) = true).
    { apply dict_update_truthy. unfold children.
      rewrite children_truthy, Nk. reflexivity. }
    rewrite orb_false_r, <- Kr, <- Kc.
    destruct (str_truthy t && pm); simpl; unfold final_return;
      rewrite ?dict_setitem_truthy, ?Tu; eexists; (split; [reflexivity|]).
    + rewrite dict_setitem_new.
      * rewrite Eu. unfold dict_keys. rewrite !map_app, <- app_assoc. reflexivity.
      * apply Hnt. left. rewrite Eu. unfold dict_keys. apply map_app.
    + rewrite Eu, app_nil_r. unfold dict_keys. apply map_app.
Qed.

Lemma output_key_order_witness :
  exists d,
    xml_to_dict
      (mkElement "r" [("{u}id", "1"); ("lang", "en")] (Some "t")
         [Scenarios.leaf "b" None; Scenarios.leaf "{u}c" None;
          Scenarios.leaf "b" None]) true true false = Ok (JDict d)
    /\ dict_keys d = ["@id"; "@lang"; "b"; "c"; "#text"].
Proof.
  apply (output_key_order
           (mkElement "r" [("{u}id", "1"); ("lang", "en")] (Some "t")
              [Scenarios.leaf "b" None; Scenarios.leaf "{u}c" None;
               Scenarios.leaf "b" None]) true true false "t").
  - reflexivity.
  - left. discriminate.
  - repeat constructor; simpl; intuition discriminate.
  - reflexivity.
Defined.

(** ** Names with more than one brace in the pipeline *)

(** X16. With [strip_namespaces], lines 167-176 cut names twice below the
    root key and once in it: the value they give is the one the converter
    gives, with the option off, on the tree the normaliser leaves after
    two passes, and the key of [preserve_root] is the root tag after one
    pass. *)
Theorem json_data_strips_twice (tree : ElementTree) (pr pm en : bool) :
  exists once twice,
    preprocess_xml_tree tree true = Ok once
    /\ preprocess_xml_tree once true = Ok twice
    /\ json_data tree pr true pm en
       = do value <- xml_to_dict (getroot twice) false pm en ;;
         Ok (if pr then JDict [(tag (getroot once), value)] else value).
Proof.
  exists (mkElementTree (normalized (getroot tree))),
    (mkElementTree (normalized (normalized (getroot tree)))).
  rewrite !preprocess_xml_tree_ok. split; [reflexivity|]. split; [reflexivity|].
  unfold json_data. rewrite preprocess_xml_tree_ok. simpl.
  rewrite xml_to_dict_normalized.
  destruct (xml_to_dict (normalized (normalized (getroot tree))) false pm en);
    destruct pr; reflexivity.
Qed.

(** ** More on the batch and the normaliser *)

Section BatchStops.
Context {World Path Error : Type}.
Variable path_exists : Path -> World -> bool.
Variable path_is_dir : Path -> World -> bool.
Variable path_is_file : Path -> World -> bool.
Variable path_iterdir : Path -> World -> Outcome Error (list Path).
Variable path_suffix_lower : Path -> string.
Variable json_beside : Path -> Path -> Path.
Variable convert_xml_to_json : Path -> Path -> World -> Outcome Error bool * World.

Lemma convert_each_raises (output_path : Path) (xml_files : list Path) :
  forall (success_count : nat) (w : World) results w',
    attempts json_beside convert_xml_to_json output_path xml_files w
    = (results, w') ->
    forallb returned results = false ->
    length results <= length xml_files
    /\ exists err,
         last results (Returns true) = Raises err
         /\ convert_each json_beside convert_xml_to_json output_path xml_files
              success_count w = (Raises err, w').
Proof.
  induction xml_files as [|f files IH]; intros c w results w' Ha Hr; simpl in *.
  - injection Ha as <- <-. discriminate Hr.
  - destruct (convert_xml_to_json f (json_beside output_path f) w) as [[b|err] w1].
    2:{ injection Ha as <- <-. split; [simpl; lia|]. exists err. split; reflexivity. }
    destruct (attempts json_beside convert_xml_to_json output_path files w1)
      as [rs w2] eqn:Er.
    injection Ha as <- <-. simpl in Hr.
    destruct (IH (if b then c + 1 else c) w1 rs w2 Er Hr) as (Hl & err & El & Ec).
    split; [simpl; lia|]. exists err. split.
    + simpl. destruct rs; [discriminate Hr | exact El].
    + destruct b; exact Ec.
Qed.

(** X17. A conversion that raises ends the batch: over an existing
    directory, the batch raises what the first raising conversion raised,
    in the world that conversion left, and the files after it are not
    converted. *)
Theorem batch_stops_at_exception (input_dir : Path) (output_dir : option Path)
  (w w' : World) (listing : list Path) (results : list (Outcome Error bool)) :
  path_exists input_dir w = true ->
  path_is_dir input_dir w = true ->
  path_iterdir input_dir w = Returns listing ->
  attempts json_beside convert_xml_to_json
    (match output_dir with Some d => d | None => input_dir end)
    (select_xml_files path_is_file path_suffix_lower listing w) w
  = (results, w') ->
  forallb returned results = false ->
  length results
  <= length (select_xml_files path_is_file path_suffix_lower listing w)
  /\ exists err,
       last results (Returns true) = Raises err
       /\ batch_convert_xml_to_json path_exists path_is_dir path_is_file
            path_iterdir path_suffix_lower json_beside convert_xml_to_json
            input_dir output_dir w
          = (Raises err, w').
Proof.
  intros He Hd Hi Ha Hr. unfold batch_convert_xml_to_json.
  rewrite He, Hd, Hi. simpl.
  set (files := select_xml_files path_is_file path_suffix_lower listing w) in *.
  destruct (convert_each_raises _ files 0 w results w' Ha Hr)
    as (Hl & err & El & Ec).
  split; [exact Hl|]. exists err. split; [exact El|].
  destruct files as [|f files'] eqn:Ef.
  - simpl in Ha. injection Ha as <- <-. discriminate Hr.
  - rewrite <- Ef in *. rewrite Ec. reflexivity.
Qed.
End BatchStops.

Lemma batch_stops_at_exception_witness :
  exists err,
    batch_convert_xml_to_json
      (fun _ _ => true) (fun _ _ => true) (fun _ _ => true)
      (fun _ _ => Returns ["a.xml"; "b.xml"; "c.xml"])
      toy_suffix (fun d f => f) toy_raising_convert "dir" None []
    = (Raises err, ["a.xml"; "b.xml"]).
Proof.
  destruct (batch_stops_at_exception
              (fun _ _ => true) (fun _ _ => true) (fun _ _ => true)
              (fun _ _ => Returns ["a.xml"; "b.xml"; "c.xml"])
              toy_suffix (fun d f => f) toy_raising_convert "dir" None []
              ["a.xml"; "b.xml"] ["a.xml"; "b.xml"; "c.xml"]
              [Returns true; Raises "PermissionError"]) as (_ & err & _ & H);
    try reflexivity.
  exists err. exact H.
Defined.

(** X18. What the normaliser leaves. On every element of the tree it
    returns, the attribute names are distinct; and when no name of the
    tree it is given has more than one closing brace, no name of the tree
    it returns has any. *)
Theorem normalizer_output_names (e : Element) :
  exists e',
    preprocess_element e = Ok e'
    /\ attribs_are_dicts e'
    /\ (all_names at_most_one_brace e = true -> all_names no_brace e' = true).
Proof.
  exists (normalized e). split; [apply preprocess_element_ok|].
  split; [apply normalized_dicts | apply normalized_names].
Qed.

Lemma normalizer_output_names_witness :
  exists e',
    preprocess_element ns_nested_tree = Ok e'
    /\ all_names no_brace e' = true.
Proof.
  destruct (normalizer_output_names ns_nested_tree) as (e' & E & _ & H).
  exists e'. split; [exact E | apply H; reflexivity].
Defined.

(** * On the trees the parser delivers *)

(** ** Parsed names *)

Lemma name_char_not_brace (a : ascii) :
  name_char a = true -> Ascii.eqb a "}" = false.
Proof.
  destruct (Ascii.eqb_spec a "}") as [->|N]; [|reflexivity].
  vm_compute. discriminate.
Qed.

Lemma name_start_is_name_char (a : ascii) :
  name_start_char a = true -> name_char a = true.
Proof. unfold name_char. intros ->. reflexivity. Qed.

Lemma name_chars_count (s : string) :
  str_all name_char s = true -> str_count "}" s = 0.
Proof.
  induction s as [|a r IH]; simpl; [reflexivity|]. intros H.
  apply andb_prop in H. destruct H as [Ha Hr].
  rewrite (name_char_not_brace a Ha), (IH Hr). reflexivity.
Qed.

Lemma xml_name_count (s : string) : xml_name s = true -> str_count "}" s = 0.
Proof.
  destruct s as [|a r]; simpl; [discriminate|]. intros H.
  apply andb_prop in H. destruct H as [Ha Hr].
  apply name_start_is_name_char in Ha.
  rewrite (name_char_not_brace a Ha), (name_chars_count r Hr). reflexivity.
Qed.

Lemma xml_name_not_text (s : string) : xml_name s = true -> s <> "#text".
Proof. intros H ->. vm_compute in H. discriminate H. Qed.

Lemma count_zero_no_brace (s : string) :
  str_count "}" s = 0 -> str_contains "}" s = false.
Proof. intros H. rewrite str_contains_count, H. reflexivity. Qed.

(** A parsed name holds one closing brace at most, and the key the
    converter files it under is an XML name or the name itself: never
    ["#text"]. *)
Lemma parser_name_facts (s : string) :
  parser_name s = true ->
  at_most_one_brace s = true /\ forall sn, key_of sn s <> "#text".
Proof.
  destruct s as [|a r]; [discriminate|]. unfold parser_name.
  destruct (Ascii.eqb_spec a "{") as [->|Na].
  - intros H. apply andb_prop in H. destruct H as [Hc Hl].
    assert (Hr : str_count "}" r = 1).
    { assert (Ha := str_count_after "}" r). rewrite (xml_name_count _ Hl) in Ha.
      rewrite str_contains_count in Hc.
      destruct (str_count "}" r) as [|[|n]]; simpl in *; [discriminate | reflexivity | discriminate]. }
    split.
    + unfold at_most_one_brace. simpl. rewrite Hr. reflexivity.
    + intros sn. unfold key_of. simpl. rewrite Hc.
      destruct sn; simpl; [apply xml_name_not_text; exact Hl | discriminate].
  - intros H. assert (Hz := xml_name_count _ H). split.
    + unfold at_most_one_brace. rewrite Hz. reflexivity.
    + intros sn. unfold key_of. rewrite (count_zero_no_brace _ Hz), andb_false_r.
      apply xml_name_not_text. exact H.
Qed.

(** Names the parser delivers, and names it does not. *)
Example parser_name_examples :
  parser_name "body" = true
  /\ parser_name "{http://www.w3.org/1999/xhtml}body" = true
  /\ parser_name "xs:element" = true
  /\ parser_name "#text" = false
  /\ parser_name "@id" = false
  /\ parser_name "{x}y}a" = false
  /\ parser_name "" = false.
Proof. repeat split; reflexivity. Qed.

Lemma all_names_impl (P Q : string -> bool) (e : Element) :
  (forall s, P s = true -> Q s = true) ->
  all_names P e = true -> all_names Q e = true.
Proof.
  intros HPQ. induction e as [t a x kids IH] using Element_nested_ind.
  simpl. intros H.
  apply andb_prop in H. destruct H as [H Hk].
  apply andb_prop in H. destruct H as [Ht Ha].
  rewrite (HPQ t Ht). simpl.
  assert (Ea : forallb (fun kv => Q (fst kv)) a = true).
  { clear -HPQ Ha. induction a as [|kv a IHa]; simpl in *; [reflexivity|].
    apply andb_prop in Ha. destruct Ha as [H1 H2].
    rewrite (HPQ _ H1), (IHa H2). reflexivity. }
  rewrite Ea. simpl.
  induction IH as [|c kids Hc _ IHk]; simpl in *; [reflexivity|].
  apply andb_prop in Hk. destruct Hk as [H1 H2].
  rewrite (Hc H1), (IHk H2). reflexivity.
Qed.

Lemma all_names_child (P : string -> bool) (e c : Element) :
  all_names P e = true -> In c (child_elements e) -> P (tag c) = true.
Proof.
  destruct e as [t a x kids]. simpl. intros H Hc.
  apply andb_prop in H. destruct H as [_ Hk].
  rewrite forallb_forall in Hk. specialize (Hk c Hc).
  destruct c as [ct ca cx ck]. simpl in *.
  apply andb_prop in Hk. destruct Hk as [Hk _].
  apply andb_prop in Hk. destruct Hk as [Hk _]. exact Hk.
Qed.

(** In a parsed tree no child is filed under ["#text"]. *)
Lemma parsed_children_keys (e : Element) (sn : bool) :
  all_names parser_name e = true ->
  children_tagged sn "#text" e = []
  /\ forall T, children_tagged sn T e <> [] -> T <> "#text".
Proof.
  intros H.
  assert (Hno : forall c, In c (child_elements e) -> has_tag sn "#text" c = false).
  { intros c Hc. rewrite has_tag_key.
    destruct (String.eqb_spec (key_of sn (tag c)) "#text") as [E|N]; [|reflexivity].
    exfalso.
    destruct (parser_name_facts (tag c) (all_names_child parser_name e c H Hc))
      as [_ Hkey].
    exact (Hkey sn E). }
  assert (He : children_tagged sn "#text" e = []).
  { unfold children_tagged.
    induction (child_elements e) as [|c kids IH]; simpl; [reflexivity|].
    rewrite (Hno c (or_introl eq_refl)). apply IH.
    intros c' Hc'. apply Hno. right. exact Hc'. }
  split; [exact He|]. intros T HT ->. contradiction.
Qed.

(** ** Same-tag promotion, mixed content and idempotence *)

(** C1. For every element of a parsed tree and every key [T] under which
    at least one of its children is filed, the key of a child being its
    tag as [clean_tag] gives it: the value returned is a mapping that
    holds, at [T], the value of the child itself when there is one such
    child, never a list, and when there are [n >= 2] the list of their
    [n] values in document order, adjacent or not. *)
Theorem same_tag_promotion_parsed (e : Element) (sn pm en : bool) (T : string) :
  all_names parser_name e = true ->
  children_tagged sn T e <> [] ->
  promotes_same_tag e sn pm en T.
Proof.
  intros Hp HT.
  apply (same_tag_promotion e sn pm en T (trimmed_text (text e)) HT).
  - apply get_text_content_trimmed.
  - left. destruct (parsed_children_keys e sn Hp) as [_ Hkeys].
    exact (Hkeys T HT).
Qed.

Lemma same_tag_promotion_parsed_witness :
  promotes_same_tag
    (mkElement "{u}r" [("{u}id", "7")] (Some "text")
       [Scenarios.leaf "{u}b" (Some "x"); Scenarios.leaf "c" None;
        Scenarios.leaf "b" (Some "y")]) true true false "b".
Proof.
  apply (same_tag_promotion_parsed
           (mkElement "{u}r" [("{u}id", "7")] (Some "text")
              [Scenarios.leaf "{u}b" (Some "x"); Scenarios.leaf "c" None;
               Scenarios.leaf "b" (Some "y")]) true true false "b").
  - reflexivity.
  - discriminate.
Defined.



(** C5. The normaliser is idempotent on every parsed tree, with
    [strip_namespaces] on or off: two passes in succession leave the very
    tree that one pass leaves, in its names and in everything else. *)
Theorem normalizer_idempotent_parsed (tree : ElementTree) (sn : bool) :
  all_names parser_name (getroot tree) = true ->
  idempotent_on tree sn.
Proof.
  intros Hp. apply normalizer_idempotent_single_brace. right.
  apply (all_names_impl parser_name at_most_one_brace); [|exact Hp].
  intros s Hs. destruct (parser_name_facts s Hs) as [Hone _]. exact Hone.
Qed.

Lemma normalizer_idempotent_parsed_witness :
  idempotent_on (mkElementTree ns_nested_tree) true.
Proof.
  apply (normalizer_idempotent_parsed (mkElementTree ns_nested_tree) true).
  reflexivity.
Defined.

(** * The frame budget *)

(** With fewer frames than the tree has levels, the converter on the
    store raises [RecursionError], and it leaves the store. *)
Lemma xml_to_dict_at_too_deep (st : gmap loc ElementObj) (e : Element) :
  forall (l : loc) (depth : nat) (sn pm en : bool),
    represents st l e ->
    depth < height e ->
    xml_to_dict_at depth l sn pm en st = (Raise RecursionError, st).
Proof.
  induction e as [t a x kids IH] using Element_nested_ind.
  intros l depth sn pm en R Hd.
  destruct depth as [|depth]; [reflexivity|].
  destruct (represents_inv _ _ _ R) as (o & Ho & Et & Ea & Ex & Rk).
  simpl in Et, Ea, Ex, Rk. subst t a x.
  assert (Hk : depth < fold_right (fun c h => Nat.max (height c) h) 0 kids).
  { simpl in Hd. lia. }
  clear Hd R.
  cbn [xml_to_dict_at].
  unfold st_bind at 1. unfold st_read at 1. rewrite Ho. unfold st_bind at 1.
  unfold st_lift at 1.
  destruct (add_attributes_ok sn (obj_attrib o)) as (result & -> & _).
  unfold st_bind at 1. unfold st_read at 1. rewrite Ho. unfold st_bind at 1.
  unfold st_lift at 1. rewrite get_text_content_ok.
  unfold st_bind at 1. unfold st_read at 1. rewrite Ho. unfold st_bind at 1.
  match goal with
  | |- context [for_each_m ?bm (obj_children o) [] st] =>
      assert (L : forall acc,
                 for_each_m bm (obj_children o) acc st
                 = (Raise RecursionError, st))
  end.
  { clear Ho. revert Hk IH.
    induction Rk as [|lc c locs kids Rc Rk IHk]; intros Hk IH acc.
    - simpl in Hk. lia.
    - apply Forall_cons_iff in IH. destruct IH as [IHc IHr].
      cbn [for_each_m].
      destruct (represents_inv _ _ _ Rc) as (oc & Hoc & Etc & _).
      unfold st_bind at 1. unfold st_bind at 1. unfold st_read at 1.
      rewrite Hoc. unfold st_bind at 1. unfold st_lift at 1. rewrite <- Etc.
      rewrite clean_tag_ok. unfold st_bind at 1.
      destruct (Nat.le_gt_cases (height c) depth) as [Hle|Hgt].
      + rewrite (xml_to_dict_at_tree st c lc depth sn pm en Rc Hle).
        rewrite xml_to_dict_value_of. unfold st_lift at 1.
        rewrite add_child_ok. apply IHk; [|exact IHr].
        simpl in Hk. lia.
      + rewrite (IHc lc depth sn pm en Rc Hgt). reflexivity. }
  rewrite L. reflexivity.
Qed.

Lemma height_nested (n : nat) : height (nested n) = S n.
Proof.
  induction n as [|n IH]; [reflexivity|].
  change (height (nested (S n))) with (S (Nat.max (height (nested n)) 0)).
  rewrite IH. lia.
Qed.

Lemma represents_weaken (st st' : gmap loc ElementObj) (e : Element) :
  st ⊆ st' -> forall l, represents st l e -> represents st' l e.
Proof.
  intros Hsub. induction e as [t a x kids IH] using Element_nested_ind.
  intros l R.
  destruct (represents_inv _ _ _ R) as (o & Ho & Et & Ea & Ex & Rk).
  simpl in Et, Ea, Ex, Rk. subst t a x.
  apply represents_node; [exact (lookup_weaken _ _ _ _ Ho Hsub)|].
  clear Ho R. induction Rk as [|lc c locs kids Rc Rk IHk]; [constructor|].
  apply Forall_cons_iff in IH. destruct IH as [IHc IHr].
  constructor; [apply IHc; exact Rc | apply IHk; exact IHr].
Qed.

Lemma nested_store_fresh (n : nat) :
  forall i j, j < i -> nested_store i n !! j = None.
Proof.
  induction n as [|n IH]; intros i j H; simpl.
  - rewrite lookup_insert_ne by lia. apply lookup_empty.
  - rewrite lookup_insert_ne by lia. apply IH. lia.
Qed.

Lemma nested_store_represents (n : nat) :
  forall i, represents (nested_store i n) i (nested n).
Proof.
  induction n as [|n IH]; intros i.
  - apply (represents_node (nested_store i 0) i (mkElementObj "a" [] None []) []).
    + apply lookup_insert_eq.
    + constructor.
  - apply (represents_node (nested_store i (S n)) i
             (mkElementObj "a" [] None [S i]) [nested n]).
    + apply lookup_insert_eq.
    + constructor; [|constructor].
      apply (represents_weaken (nested_store (S i) n)); [|apply IH].
      apply insert_subseteq. apply nested_store_fresh. lia.
Qed.




(** * What the result depends on *)

(** Two parsed elements that agree on attributes, on trimmed text and on
    what their children convert to, and still convert to different
    values: [<a><b/></a>] and [<a><c/></a>]. The tags of the children
    count. *)
Lemma child_tags_matter :
  let e1 := mkElement "a" [] None [Scenarios.leaf "b" None] in
  let e2 := mkElement "a" [] None [Scenarios.leaf "c" None] in
  all_names parser_name e1 = true
  /\ all_names parser_name e2 = true
  /\ attrib e1 = attrib e2
  /\ get_text_content (text e1) = get_text_content (text e2)
  /\ Forall2 (fun c1 c2 =>
                xml_to_dict c1 false true false = xml_to_dict c2 false true false)
       (child_elements e1) (child_elements e2)
  /\ xml_to_dict e1 false true false = Ok (JDict [("b", JDict [])])
  /\ xml_to_dict e2 false true false = Ok (JDict [("c", JDict [])])
  /\ xml_to_dict e1 false true false <> xml_to_dict e2 false true false.
Proof.
  repeat split; try reflexivity.
  - constructor; [reflexivity | constructor].
  - vm_compute. discriminate.
Qed.

(** * Lines 167-176 within the frame budget *)


